(** * Treasury tracker: payment schedules and portfolio aggregation

    A shallow embedding of [routers/investments.py] together with the
    parts of [models.py] and [schemas.py] it relies on, and the
    properties of schedule generation, investment creation and update,
    and of the portfolio summary and upcoming-payments queries.

    Conventions of the embedding:
    - a [datetime.date] is a record of year, month and day; Python only
      ever builds valid dates, which the theorems take as the hypothesis
      [Date.valid];
    - a [Decimal] is a rational number.  Sums, differences and products
      are exact, as they are on the values of the [Numeric(15, 2)] and
      [Numeric(5, 4)] columns; a quotient is rounded to the 28
      significant digits of the default decimal context, half to even;
    - the database session is a record of the committed rows.  A handler
      returns the rows committed when the request ends together with its
      outcome; what a handler changed and did not commit is discarded
      when [get_db] closes the session. *)

From Stdlib Require Import ZArith QArith Qround Qabs Qpower List String Bool Lia.
From Stdlib Require Import DecimalString Permutation Sorted.
Import ListNotations.
Local Open Scope Z_scope.

(** ** Outcomes of a computation *)

(** The Python exceptions that the modelled code can raise. *)
Inductive exn : Type :=
| TypeError (msg : string)
| ValueError (msg : string)
| NameError (name : string)
| OverflowError (msg : string)
| HTTPException (status_code : Z) (detail : string)
| DivisionByZero
| InvalidOperation.

(** [Timeout] is no Python outcome: it marks a [while] loop of the model
    that used up its iteration budget. *)
Inductive outcome (A : Type) : Type :=
| Ok (a : A)
| Raise (e : exn)
| Timeout.

Arguments Ok {A} a.
Arguments Raise {A} e.
Arguments Timeout {A}.

(** Sequencing: an exception or a timeout ends the computation. *)
Definition bind {A B : Type} (c : outcome A) (k : A -> outcome B) : outcome B :=
  match c with
  | Ok a => k a
  | Raise e => Raise e
  | Timeout => Timeout
  end.

Notation "x <- c ;; k" := (bind c (fun x => k))
  (at level 61, c at next level, right associativity).

(** ** Calendar dates: [datetime.date] and [dateutil.relativedelta] *)

Module Date.

Record t : Type := mk { year : Z; month : Z; day : Z }.

(** The bounds [datetime.MINYEAR] and [datetime.MAXYEAR]. *)
Definition MINYEAR : Z := 1.
Definition MAXYEAR : Z := 9999.

(** [calendar.isleap] *)
Definition isleap (y : Z) : bool :=
  (y mod 4 =? 0) && (negb (y mod 100 =? 0) || (y mod 400 =? 0)).

(** [calendar.monthrange(y, m)[1]]: the number of days of the month. *)
Definition days_in_month (y m : Z) : Z :=
  if m =? 2 then (if isleap y then 29 else 28)
  else if (m =? 4) || (m =? 6) || (m =? 9) || (m =? 11) then 30
  else 31.

(** The dates a [datetime.date] object can hold. *)
Definition valid (d : t) : bool :=
  (MINYEAR <=? year d) && (year d <=? MAXYEAR)
  && (1 <=? month d) && (month d <=? 12)
  && (1 <=? day d) && (day d <=? days_in_month (year d) (month d)).

(** Comparison of dates is the comparison of (year, month, day). *)
Definition compare (a b : t) : comparison :=
  match year a ?= year b with
  | Eq => match month a ?= month b with
          | Eq => day a ?= day b
          | c => c
          end
  | c => c
  end.

(** The tests [a == b], [a <= b] and [a < b]. *)
Definition eqb (a b : t) : bool :=
  match compare a b with Eq => true | _ => false end.
Definition leb (a b : t) : bool :=
  match compare a b with Gt => false | _ => true end.
Definition ltb (a b : t) : bool :=
  match compare a b with Lt => true | _ => false end.

(** The fields of [other + relativedelta(months=n)] for [n >= 0], before
    the date object is rebuilt.  [relativedelta] normalises [n] months
    to [n / 12] years and [n mod 12] months; its [__add__] adds the
    years, then the months (carrying one year when the month passes 12),
    and takes the smaller of the day and the length of the target
    month. *)
Definition shift_months (n : Z) (other : t) : t :=
  let years := n / 12 in
  let months := n mod 12 in
  let year := year other + years in
  let month := month other + months in
  let '(year, month) :=
    if 12 <? month then (year + 1, month - 12) else (year, month) in
  let day := Z.min (days_in_month year month) (day other) in
  mk year month day.

(** [other + relativedelta(months=n)]: [date.replace] raises
    [ValueError] when the year leaves the range of [datetime.date]. *)
Definition add_months (n : Z) (other : t) : outcome t :=
  let r := shift_months n other in
  if (MINYEAR <=? year r) && (year r <=? MAXYEAR) then Ok r
  else Raise (ValueError "year is out of range").

(** The day after [d]. *)
Definition next_day (d : t) : t :=
  if day d <? days_in_month (year d) (month d) then
    mk (year d) (month d) (day d + 1)
  else if month d <? 12 then mk (year d) (month d + 1) 1
  else mk (year d + 1) 1 1.

(** [d + timedelta(days=n)], which raises [OverflowError] past the last
    date. *)
Definition add_days (n : Z) (d : t) : outcome t :=
  let r := Nat.iter (Z.to_nat n) next_day d in
  if year r <=? MAXYEAR then Ok r
  else Raise (OverflowError "date value out of range").

(** Months elapsed since year 0: a measure of how far a date is. *)
Definition month_index (d : t) : Z := 12 * year d + month d.

End Date.

Infix "<=d" := Date.leb (at level 70).
Infix "<d" := Date.ltb (at level 70).
Infix "=d" := Date.eqb (at level 70).

(** ** Decimal arithmetic *)

Module Decimal.

(** Precision of the default context. *)
Definition prec : Z := 28.

(** The digits of [n] counted by successive divisions by ten, [fuel] of
    them at most. *)
Fixpoint digits_upto (fuel : nat) (n : Z) : Z :=
  match fuel with
  | O => 0
  | S fuel' => if n <? 10 then 1 else 1 + digits_upto fuel' (n / 10)
  end.

(** Number of decimal digits of a positive integer. *)
Definition digits (n : Z) : Z := digits_upto (S (Z.to_nat (Z.log2 n))) n.

(** The power [10^e] of an exponent of either sign. *)
Definition pow10 (e : Z) : Q := Qpower 10 e.

(** The exponent [e] of the leading digit of [q <> 0]:
    [10^e <= |q| < 10^(e+1)]. *)
Definition adjusted (q : Q) : Z :=
  let e := digits (Z.abs (Qnum q)) - digits (Zpos (Qden q)) in
  if Qle_bool (pow10 e) (Qabs q) then e else e - 1.

(** Rounding of a non-negative rational to an integer, half to even. *)
Definition round_half_even (q : Q) : Z :=
  let f := Qfloor q in
  match Qcompare (q - inject_Z f) (1 # 2) with
  | Lt => f
  | Gt => f + 1
  | Eq => if Z.even f then f else f + 1
  end.

(** Rounding to [prec] significant digits, as the context rounds the
    result of an operation. *)
Definition ctx_round (q : Q) : Q :=
  if Qeq_bool q 0 then 0
  else
    let e := adjusted q - (prec - 1) in
    let c := round_half_even (Qabs q / pow10 e) in
    Qred (inject_Z (Z.sgn (Qnum q) * c) * pow10 e).

(** [a / b] for a divisor that is not zero. *)
Definition quo (a b : Q) : Q := ctx_round (a / b).

(** [a / b]: division by zero raises. *)
Definition div (a b : Q) : outcome Q :=
  if Qeq_bool b 0 then
    if Qeq_bool a 0 then Raise InvalidOperation else Raise DivisionByZero
  else Ok (quo a b).

(** The builtin [sum] over decimals. *)
Definition sum (l : list Q) : Q := fold_left Qplus l 0%Q.

End Decimal.

(** ** The tables: [models.py] *)

Inductive InvestmentType : Type := TREASURY_NOTE | TREASURY_BILL.
Inductive InvestmentStatus : Type := ACTIVE | MATURED | SOLD | CANCELLED.
Inductive PaymentType : Type := COUPON | PRINCIPAL | FINAL_PAYMENT.
Inductive PaymentStatus : Type := PENDING | DUE | PAID | OVERDUE.

(** Equality of enumeration members, as the queries test it. *)
Definition InvestmentStatus_eqb (a b : InvestmentStatus) : bool :=
  match a, b with
  | ACTIVE, ACTIVE | MATURED, MATURED | SOLD, SOLD | CANCELLED, CANCELLED => true
  | _, _ => false
  end.

Definition PaymentStatus_eqb (a b : PaymentStatus) : bool :=
  match a, b with
  | PENDING, PENDING | DUE, DUE | PAID, PAID | OVERDUE, OVERDUE => true
  | _, _ => false
  end.

Module User.
(** A row of [users], of which the handlers read the identifier. *)
Record t : Type := mk { id : string }.
End User.

Module Investment.
(** A row of [investments].  [issue_date], [description] and [status]
    are nullable columns. *)
Record t : Type := mk {
  id : string;
  user_id : string;
  investment_type : InvestmentType;
  description : option string;
  face_value : Q;
  purchase_price : Q;
  annual_coupon_rate : Q;
  issue_date : option Date.t;
  purchase_date : Date.t;
  maturity_date : Date.t;
  status : option InvestmentStatus
}.
End Investment.

Module PaymentSchedule.
(** A row of [payment_schedules]. *)
Record t : Type := mk {
  id : string;
  investment_id : string;
  payment_date : Date.t;
  payment_amount : Q;
  payment_type : PaymentType;
  payment_status : option PaymentStatus;
  description : option string;
  actual_payment_date : option Date.t;
  actual_payment_amount : option Q
}.
End PaymentSchedule.

Module Db.
(** The committed rows of the two tables, in insertion order. *)
Record t : Type := mk {
  investments : list Investment.t;
  payment_schedules : list PaymentSchedule.t
}.
End Db.

(** ** The request bodies: [schemas.py] *)

(** [a < b] on decimals. *)
Definition Qltb (a b : Q) : bool := negb (Qle_bool b a).

(** [Field(None, max_length=n)] on an optional string. *)

Definition max_length (n : nat) (s : option string) : bool :=
  match s with
  | None => true
  | Some s => Nat.leb (String.length s) n
  end.

Module InvestmentCreate.
(** The fields of [InvestmentBase]. *)
Record t : Type := mk {
  investment_type : InvestmentType;
  description : option string;
  face_value : Q;
  purchase_price : Q;
  annual_coupon_rate : Q;
  issue_date : option Date.t;
  purchase_date : Date.t;
  maturity_date : Date.t
}.

(** [validate_maturity_date]: rejects [v <= purchase_date]. *)
Definition validate_maturity_date (d : t) : bool :=
  negb (maturity_date d <=d purchase_date d).

(** [validate_issue_date]: rejects an issue date after the purchase. *)
Definition validate_issue_date (d : t) : bool :=
  match issue_date d with
  | Some v => negb (purchase_date d <d v)
  | None => true
  end.

(** [validate_coupon_rate]: a note needs a positive rate, a bill none. *)
Definition validate_coupon_rate (d : t) : bool :=
  match investment_type d with
  | TREASURY_NOTE => negb (Qle_bool (annual_coupon_rate d) 0)
  | TREASURY_BILL => Qeq_bool (annual_coupon_rate d) 0
  end.

(** The constraints that [InvestmentBase] declares on a creation
    request: the [Field] bounds and the three validators. *)
Definition preconditions (d : t) : bool :=
  max_length 500 (description d)
  && Qltb 0 (face_value d)
  && Qltb 0 (purchase_price d)
  && Qle_bool 0 (annual_coupon_rate d) && Qle_bool (annual_coupon_rate d) 1
  && Date.valid (purchase_date d) && Date.valid (maturity_date d)
  && match issue_date d with Some v => Date.valid v | None => true end
  && validate_maturity_date d
  && validate_issue_date d
  && validate_coupon_rate d.
End InvestmentCreate.

Module InvestmentUpdate.
(** Both fields are optional: [None] is a field the request left
    unset, [Some v] a field it sent, [v] itself being null or a value. *)
Record t : Type := mk {
  description : option (option string);
  status : option (option InvestmentStatus)
}.
End InvestmentUpdate.

(** ** Schedule generation: [generate_payment_schedule] *)

(** The f-string of a regular coupon. *)
Definition coupon_description (payment_count : nat) : string :=
  "Semi-annual coupon payment #" ++ NilEmpty.string_of_uint (Nat.to_uint payment_count).

(** [current_date + relativedelta(months=6)] for a nullable date column:
    the addition is not defined on [None]. *)
Definition plus_relativedelta (current_date : option Date.t) (months : Z)
  : outcome Date.t :=
  match current_date with
  | Some d => Date.add_months months d
  | None =>
      Raise (TypeError "unsupported operand type(s) for +: 'NoneType' and 'relativedelta'")
  end.

Section Generator.

(** The identifiers drawn by the column default [uuid.uuid4] during one
    call: [uuid4 k] is the identifier of the row created after [k]
    others. *)
Variable uuid4 : nat -> string.

Variable investment : Investment.t.

(** The row of the final payment (lines 42-48). *)
Definition final_payment (coupon_amount : Q) (current_date : Date.t)
  (created : nat) : PaymentSchedule.t :=
  PaymentSchedule.mk (uuid4 created) (Investment.id investment) current_date
    (coupon_amount + Investment.face_value investment) FINAL_PAYMENT
    (Some PENDING) (Some "Final coupon payment + Principal repayment"%string)
    None None.

(** The row of a regular coupon (lines 51-57). *)
Definition coupon_payment (coupon_amount : Q) (current_date : Date.t)
  (created payment_count : nat) : PaymentSchedule.t :=
  PaymentSchedule.mk (uuid4 created) (Investment.id investment) current_date
    coupon_amount COUPON
    (Some PENDING) (Some (coupon_description payment_count))
    None None.

(** The [while] loop of lines 37-62, with [payment_count] as it is when
    the loop test is evaluated; it returns the rows it adds to the
    session.  Every iteration uses one unit of [fuel]. *)
Fixpoint note_payments (fuel : nat) (coupon_amount : Q)
  (current_date : Date.t) (payment_count : nat)
  : outcome (list PaymentSchedule.t) :=
  if current_date <=d Investment.maturity_date investment then
    match fuel with
    | O => Timeout
    | S fuel' =>
        let created := payment_count in
        let payment_count := S payment_count in
        let payment :=
          if current_date =d Investment.maturity_date investment
          then final_payment coupon_amount current_date created
          else coupon_payment coupon_amount current_date created payment_count in
        current_date <- Date.add_months 6 current_date ;;
        rest <- note_payments fuel' coupon_amount current_date payment_count ;;
        Ok (payment :: rest)
    end
  else Ok [].

(** Iterations granted to the loop: the candidate moves six months
    ahead each time, so one per month up to the maturity is plenty. *)
Definition loop_budget (current_date : Date.t) : nat :=
  Z.to_nat (Date.month_index (Investment.maturity_date investment)
            - Date.month_index current_date + 1).

(** The row of a treasury bill (lines 66-72). *)
Definition bill_payment : PaymentSchedule.t :=
  PaymentSchedule.mk (uuid4 0) (Investment.id investment)
    (Investment.maturity_date investment)
    (Investment.face_value investment) PRINCIPAL
    (Some PENDING) (Some "Treasury bill maturity payment"%string)
    None None.

(** The rows that lines 25-73 add to the session. *)
Definition new_payments : outcome (list PaymentSchedule.t) :=
  match Investment.investment_type investment with
  | TREASURY_NOTE =>
      coupon_amount <-
        Decimal.div (Investment.face_value investment
                     * Investment.annual_coupon_rate investment) 2 ;;
      let current_date := Investment.issue_date investment in
      let payment_count := O in
      current_date <- plus_relativedelta current_date 6 ;;
      note_payments (loop_budget current_date) coupon_amount current_date
        payment_count
  | TREASURY_BILL => Ok [bill_payment]
  end.

(** [generate_payment_schedule]: delete the rows of the investment, add
    the new ones, commit.  An exception leaves the function before the
    commit, and nothing of the call is kept. *)
Definition generate_payment_schedule (db : Db.t) : outcome Db.t :=
  let kept :=
    filter (fun p => negb (String.eqb (PaymentSchedule.investment_id p)
                                      (Investment.id investment)))
           (Db.payment_schedules db) in
  payments <- new_payments ;;
  Ok (Db.mk (Db.investments db) (kept ++ payments)).

End Generator.

(** ** Creation and update of an investment *)

(** The row built by [Investment(user_id=current_user.id,
    **investment_data.dict())]; [status] takes its column default. *)
Definition new_investment (id : string) (current_user : User.t)
  (investment_data : InvestmentCreate.t) : Investment.t :=
  Investment.mk id (User.id current_user)
    (InvestmentCreate.investment_type investment_data)
    (InvestmentCreate.description investment_data)
    (InvestmentCreate.face_value investment_data)
    (InvestmentCreate.purchase_price investment_data)
    (InvestmentCreate.annual_coupon_rate investment_data)
    (InvestmentCreate.issue_date investment_data)
    (InvestmentCreate.purchase_date investment_data)
    (InvestmentCreate.maturity_date investment_data)
    (Some ACTIVE).

(** [create_investment].  The investment is committed first, then the
    schedule is generated: the first component is what is committed when
    the request ends.  [uuid4 0] is the identifier of the investment, the
    later ones are those of its payments. *)
Definition create_investment (uuid4 : nat -> string)
  (investment_data : InvestmentCreate.t) (current_user : User.t) (db : Db.t)
  : Db.t * outcome Investment.t :=
  let db_investment := new_investment (uuid4 O) current_user investment_data in
  let db := Db.mk (Db.investments db ++ [db_investment]) (Db.payment_schedules db) in
  match generate_payment_schedule (fun k => uuid4 (S k)) db_investment db with
  | Ok db' => (db', Ok db_investment)
  | Raise e => (db, Raise e)
  | Timeout => (db, Timeout)
  end.

(** The assignments [setattr(investment, field, value)] of the update
    loop, over the fields the request has set. *)
Definition apply_update (investment_update : InvestmentUpdate.t)
  (investment : Investment.t) : Investment.t :=
  let investment :=
    match InvestmentUpdate.description investment_update with
    | Some value =>
        Investment.mk (Investment.id investment) (Investment.user_id investment)
          (Investment.investment_type investment) value
          (Investment.face_value investment) (Investment.purchase_price investment)
          (Investment.annual_coupon_rate investment) (Investment.issue_date investment)
          (Investment.purchase_date investment) (Investment.maturity_date investment)
          (Investment.status investment)
    | None => investment
    end in
  match InvestmentUpdate.status investment_update with
  | Some value =>
      Investment.mk (Investment.id investment) (Investment.user_id investment)
        (Investment.investment_type investment) (Investment.description investment)
        (Investment.face_value investment) (Investment.purchase_price investment)
        (Investment.annual_coupon_rate investment) (Investment.issue_date investment)
        (Investment.purchase_date investment) (Investment.maturity_date investment)
        value
  | None => investment
  end.

(** The filter [and_(Investment.id == investment_id,
    Investment.user_id == current_user.id)]. *)
Definition owned_by (investment_id : string) (current_user : User.t)
  (i : Investment.t) : bool :=
  String.eqb (Investment.id i) investment_id
  && String.eqb (Investment.user_id i) (User.id current_user).

(** [update_investment]: the commit rewrites the row whose primary key is
    that of the investment found. *)
Definition update_investment (investment_id : string)
  (investment_update : InvestmentUpdate.t) (current_user : User.t) (db : Db.t)
  : Db.t * outcome Investment.t :=
  match find (owned_by investment_id current_user) (Db.investments db) with
  | None => (db, Raise (HTTPException 404 "Investment not found"))
  | Some investment =>
      let investment := apply_update investment_update investment in
      let rows :=
        map (fun i => if String.eqb (Investment.id i) (Investment.id investment)
                      then investment else i)
            (Db.investments db) in
      (Db.mk rows (Db.payment_schedules db), Ok investment)
  end.

(** ** Portfolio aggregation *)

Module PortfolioSummary.
(** The schema [PortfolioSummary]. *)
Record t : Type := mk {
  total_investments : nat;
  active_investments : nat;
  total_face_value : Q;
  total_purchase_price : Q;
  expected_returns : Q;
  expected_profit : Q;
  portfolio_yield : Q
}.
End PortfolioSummary.

(** [PaymentSchedule.payment_status.in_([PENDING, DUE])]; a null status
    is in no list. *)
Definition pending_or_due (p : PaymentSchedule.t) : bool :=
  match PaymentSchedule.payment_status p with
  | Some s => PaymentStatus_eqb s PENDING || PaymentStatus_eqb s DUE
  | None => false
  end.

(** The query of lines 275-277. *)
Definition active_investments_of (current_user : User.t) (db : Db.t)
  : list Investment.t :=
  filter (fun i =>
            String.eqb (Investment.user_id i) (User.id current_user)
            && match Investment.status i with
               | Some s => InvestmentStatus_eqb s ACTIVE
               | None => false
               end)
         (Db.investments db).

(** The query of lines 287-292. *)
Definition pending_payments_of (investment : Investment.t) (db : Db.t)
  : list PaymentSchedule.t :=
  filter (fun p =>
            String.eqb (PaymentSchedule.investment_id p) (Investment.id investment)
            && pending_or_due p)
         (Db.payment_schedules db).

(** [get_portfolio_summary] *)
Definition get_portfolio_summary (current_user : User.t) (db : Db.t)
  : outcome PortfolioSummary.t :=
  let investments := active_investments_of current_user db in
  let total_investments := List.length investments in
  let active_investments := total_investments in
  let total_face_value := Decimal.sum (map Investment.face_value investments) in
  let total_purchase_price := Decimal.sum (map Investment.purchase_price investments) in
  let expected_returns :=
    fold_left
      (fun expected_returns investment =>
         expected_returns
         + Decimal.sum (map PaymentSchedule.payment_amount
                            (pending_payments_of investment db)))%Q
      investments 0%Q in
  let expected_profit := (expected_returns - total_purchase_price)%Q in
  portfolio_yield <-
    (if Qltb 0 total_purchase_price then
       q <- Decimal.div expected_profit total_purchase_price ;;
       Ok (q * 100)%Q
     else Ok 0%Q) ;;
  Ok (PortfolioSummary.mk total_investments active_investments
        total_face_value total_purchase_price
        expected_returns expected_profit portfolio_yield).

Module UpcomingPayment.
(** The schema [UpcomingPayment]. *)
Record t : Type := mk {
  id : string;
  investment_id : string;
  investment_description : option string;
  investment_type : InvestmentType;
  payment_date : Date.t;
  payment_amount : Q;
  payment_type : PaymentType;
  payment_status : option PaymentStatus;
  description : option string
}.
End UpcomingPayment.

(** The names bound in the module [routers/investments.py]: its imports
    (lines 1-16), [router] and its functions.  The import of
    [relativedelta] is local to [generate_payment_schedule]. *)
Definition module_globals : list string :=
  [ "APIRouter"; "Depends"; "HTTPException"; "status"; "Query";
    "Session"; "and_"; "or_"; "List"; "Optional";
    "datetime"; "date"; "Decimal"; "uuid";
    "get_db";
    "User"; "Investment"; "PaymentSchedule"; "InvestmentType";
    "InvestmentStatus"; "PaymentStatus";
    "InvestmentCreate"; "InvestmentUpdate"; "InvestmentResponse";
    "InvestmentWithPayments"; "PaymentScheduleResponse";
    "PaymentScheduleUpdate"; "PortfolioSummary"; "PortfolioResponse";
    "UpcomingPayment"; "SuccessResponse";
    "get_current_user"; "router";
    "generate_payment_schedule"; "create_investment"; "get_investments";
    "get_investment"; "update_investment"; "delete_investment";
    "get_payment_schedule"; "update_payment"; "get_portfolio_summary";
    "get_upcoming_payments"; "get_full_portfolio" ]%string.

(** Evaluation of a global name: an unbound name raises [NameError]
    (no builtin is called [timedelta]). *)
Definition load_global (globals : list string) (name : string) : outcome unit :=
  if existsb (String.eqb name) globals then Ok tt
  else Raise (NameError name).

(** [order_by(PaymentSchedule.payment_date)]: rows in ascending date
    order, rows of one date in table order. *)
Fixpoint insert_by_date (x : PaymentSchedule.t * Investment.t)
  (l : list (PaymentSchedule.t * Investment.t))
  : list (PaymentSchedule.t * Investment.t) :=
  match l with
  | [] => [x]
  | y :: l' =>
      if PaymentSchedule.payment_date (fst x) <=d PaymentSchedule.payment_date (fst y)
      then x :: y :: l'
      else y :: insert_by_date x l'
  end.

(** The sort by insertion of the rows, last row first. *)
Definition order_by_payment_date (l : list (PaymentSchedule.t * Investment.t))
  : list (PaymentSchedule.t * Investment.t) :=
  fold_right insert_by_date [] l.

(** The join of [payment_schedules] with [investments] on the investment
    identifier. *)
Definition join_investment (db : Db.t) : list (PaymentSchedule.t * Investment.t) :=
  flat_map
    (fun p =>
       map (fun i => (p, i))
           (filter (fun i => String.eqb (PaymentSchedule.investment_id p) (Investment.id i))
                   (Db.investments db)))
    (Db.payment_schedules db).

(** The filter of lines 321-326. *)
Definition upcoming (current_user : User.t) (today end_date : Date.t)
  (row : PaymentSchedule.t * Investment.t) : bool :=
  let (payment, investment) := row in
  String.eqb (Investment.user_id investment) (User.id current_user)
  && pending_or_due payment
  && (today <=d PaymentSchedule.payment_date payment)
  && (PaymentSchedule.payment_date payment <=d end_date).

(** The [UpcomingPayment] built from a row of the join (lines 330-340). *)
Definition to_upcoming_payment (row : PaymentSchedule.t * Investment.t)
  : UpcomingPayment.t :=
  let (payment, investment) := row in
  UpcomingPayment.mk (PaymentSchedule.id payment)
    (PaymentSchedule.investment_id payment)
    (Investment.description investment)
    (Investment.investment_type investment)
    (PaymentSchedule.payment_date payment)
    (PaymentSchedule.payment_amount payment)
    (PaymentSchedule.payment_type payment)
    (PaymentSchedule.payment_status payment)
    (PaymentSchedule.description payment).

(** The body of [get_upcoming_payments], run in a module whose bound
    names are [globals]; [today] is the value of [date.today()]. *)
Definition upcoming_payments_in (globals : list string) (today : Date.t)
  (current_user : User.t) (db : Db.t) (days_ahead limit : Z)
  : outcome (list UpcomingPayment.t) :=
  _ <- load_global globals "date" ;;
  _ <- load_global globals "timedelta" ;;
  end_date <- Date.add_days days_ahead today ;;
  let payments :=
    firstn (Z.to_nat limit)
      (order_by_payment_date
         (filter (upcoming current_user today end_date) (join_investment db))) in
  Ok (map to_upcoming_payment payments).

(** [get_upcoming_payments] *)
Definition get_upcoming_payments : Date.t -> User.t -> Db.t -> Z -> Z
  -> outcome (list UpcomingPayment.t) :=
  upcoming_payments_in module_globals.

(** ** The other handlers of [routers/investments.py] *)

(** Equality of the members of [InvestmentType]. *)
Definition InvestmentType_eqb (a b : InvestmentType) : bool :=
  match a, b with
  | TREASURY_NOTE, TREASURY_NOTE | TREASURY_BILL, TREASURY_BILL => true
  | _, _ => false
  end.

(** [Investment.status == s]: a null status is equal to no member. *)
Definition has_status (s : InvestmentStatus) (i : Investment.t) : bool :=
  match Investment.status i with
  | Some s' => InvestmentStatus_eqb s' s
  | None => false
  end.


(** [get_investments]: the rows of the user, narrowed by the filters that
    are given (a member of an enumeration is a true value), then
    [offset(skip).limit(limit)]. *)
Definition get_investments (current_user : User.t) (db : Db.t)
  (status_filter : option InvestmentStatus) (investment_type : option InvestmentType)
  (skip limit : Z) : list Investment.t :=
  let query :=
    filter (fun i => String.eqb (Investment.user_id i) (User.id current_user))
           (Db.investments db) in
  let query :=
    match status_filter with
    | Some s => filter (has_status s) query
    | None => query
    end in
  let query :=
    match investment_type with
    | Some t => filter (fun i => InvestmentType_eqb (Investment.investment_type i) t) query
    | None => query
    end in
  firstn (Z.to_nat limit) (skipn (Z.to_nat skip) query).

(** [order_by(PaymentSchedule.payment_date)] on payment rows: ascending
    dates, rows of one date in table order. *)
Fixpoint insert_payment (x : PaymentSchedule.t) (l : list PaymentSchedule.t)
  : list PaymentSchedule.t :=
  match l with
  | [] => [x]
  | y :: l' =>
      if PaymentSchedule.payment_date x <=d PaymentSchedule.payment_date y
      then x :: y :: l'
      else y :: insert_payment x l'
  end.

(** The sort by insertion of the payment rows, last row first. *)
Definition order_payments (l : list PaymentSchedule.t) : list PaymentSchedule.t :=
  fold_right insert_payment [] l.

(** The filter [PaymentSchedule.investment_id == investment_id]. *)
Definition payments_of (investment_id : string) (db : Db.t) : list PaymentSchedule.t :=
  filter (fun p => String.eqb (PaymentSchedule.investment_id p) investment_id)
         (Db.payment_schedules db).

(** [get_investment]: the investment of the user with its payments in
    date order, or 404. *)
Definition get_investment (investment_id : string) (current_user : User.t) (db : Db.t)
  : outcome (Investment.t * list PaymentSchedule.t) :=
  match find (owned_by investment_id current_user) (Db.investments db) with
  | None => Raise (HTTPException 404 "Investment not found")
  | Some investment =>
      let payment_schedules := order_payments (payments_of investment_id db) in
      Ok (investment, payment_schedules)
  end.

(** [delete_investment]: [db.delete(investment)] removes the row and,
    through the cascade of the relationship [payment_schedules], the
    payments that refer to it. *)
Definition delete_investment (investment_id : string) (current_user : User.t) (db : Db.t)
  : Db.t * outcome string :=
  match find (owned_by investment_id current_user) (Db.investments db) with
  | None => (db, Raise (HTTPException 404 "Investment not found"))
  | Some investment =>
      let investments :=
        filter (fun i => negb (String.eqb (Investment.id i) (Investment.id investment)))
               (Db.investments db) in
      let payment_schedules :=
        filter (fun p => negb (String.eqb (PaymentSchedule.investment_id p)
                                          (Investment.id investment)))
               (Db.payment_schedules db) in
      (Db.mk investments payment_schedules, Ok "Investment successfully deleted"%string)
  end.


Module PaymentScheduleUpdate.
(** The three optional fields of [PaymentScheduleUpdate]: [None] is a
    field the request left unset. *)
Record t : Type := mk {
  payment_status : option (option PaymentStatus);
  actual_payment_date : option (option Date.t);
  actual_payment_amount : option (option Q)
}.

(** [Field(None, gt=0)] on the actual amount. *)
Definition preconditions (u : t) : bool :=
  match actual_payment_amount u with
  | Some (Some a) => Qltb 0 a
  | _ => true
  end.
End PaymentScheduleUpdate.

(** The assignments of the update loop of [update_payment]. *)
Definition apply_payment_update (payment_update : PaymentScheduleUpdate.t)
  (payment : PaymentSchedule.t) : PaymentSchedule.t :=
  let payment :=
    match PaymentScheduleUpdate.payment_status payment_update with
    | Some value =>
        PaymentSchedule.mk (PaymentSchedule.id payment)
          (PaymentSchedule.investment_id payment) (PaymentSchedule.payment_date payment)
          (PaymentSchedule.payment_amount payment) (PaymentSchedule.payment_type payment)
          value (PaymentSchedule.description payment)
          (PaymentSchedule.actual_payment_date payment)
          (PaymentSchedule.actual_payment_amount payment)
    | None => payment
    end in
  let payment :=
    match PaymentScheduleUpdate.actual_payment_date payment_update with
    | Some value =>
        PaymentSchedule.mk (PaymentSchedule.id payment)
          (PaymentSchedule.investment_id payment) (PaymentSchedule.payment_date payment)
          (PaymentSchedule.payment_amount payment) (PaymentSchedule.payment_type payment)
          (PaymentSchedule.payment_status payment) (PaymentSchedule.description payment)
          value (PaymentSchedule.actual_payment_amount payment)
    | None => payment
    end in
  match PaymentScheduleUpdate.actual_payment_amount payment_update with
  | Some value =>
      PaymentSchedule.mk (PaymentSchedule.id payment)
        (PaymentSchedule.investment_id payment) (PaymentSchedule.payment_date payment)
        (PaymentSchedule.payment_amount payment) (PaymentSchedule.payment_type payment)
        (PaymentSchedule.payment_status payment) (PaymentSchedule.description payment)
        (PaymentSchedule.actual_payment_date payment) value
  | None => payment
  end.

(** The filter [and_(PaymentSchedule.id == payment_id,
    PaymentSchedule.investment_id == investment_id)]. *)
Definition payment_of (payment_id investment_id : string) (p : PaymentSchedule.t) : bool :=
  String.eqb (PaymentSchedule.id p) payment_id
  && String.eqb (PaymentSchedule.investment_id p) investment_id.

(** [update_payment]: the commit rewrites the row whose primary key is
    that of the payment found. *)
Definition update_payment (investment_id payment_id : string)
  (payment_update : PaymentScheduleUpdate.t) (current_user : User.t) (db : Db.t)
  : Db.t * outcome PaymentSchedule.t :=
  match find (owned_by investment_id current_user) (Db.investments db) with
  | None => (db, Raise (HTTPException 404 "Investment not found"))
  | Some investment =>
      match find (payment_of payment_id investment_id) (Db.payment_schedules db) with
      | None => (db, Raise (HTTPException 404 "Payment not found"))
      | Some payment =>
          let payment := apply_payment_update payment_update payment in
          let rows :=
            map (fun p => if String.eqb (PaymentSchedule.id p) (PaymentSchedule.id payment)
                          then payment else p)
                (Db.payment_schedules db) in
          (Db.mk (Db.investments db) rows, Ok payment)
      end
  end.

Module PortfolioResponse.
(** The schema [PortfolioResponse]. *)
Record t : Type := mk {
  summary : PortfolioSummary.t;
  investments : list Investment.t;
  upcoming_payments : list UpcomingPayment.t
}.
End PortfolioResponse.


(** * Notions used by the statements *)

(** The month of a date is one of the twelve. *)
Definition month_ok (d : Date.t) : Prop := 1 <= Date.month d <= 12.

(** The candidate payment dates: the anchor moved six months ahead [k]
    times, one step after the other. *)
Definition candidate (anchor : Date.t) (k : nat) : Date.t :=
  Nat.iter k (Date.shift_months 6) anchor.

(** The row that the loop creates at the candidate date [c], after
    [created] earlier rows. *)
Definition payment_at (uuid4 : nat -> string) (inv : Investment.t)
  (coupon_amount : Q) (c : Date.t) (created : nat) : PaymentSchedule.t :=
  if c =d Investment.maturity_date inv
  then final_payment uuid4 inv coupon_amount c created
  else coupon_payment uuid4 inv coupon_amount c created (S created).

(** The semi-annual coupon of an investment (line 27). *)
Definition coupon_of (inv : Investment.t) : Q :=
  Decimal.quo (Investment.face_value inv * Investment.annual_coupon_rate inv) 2.

(** The rows of [db] that belong to the investment [inv]. *)
Definition schedule_of (inv : Investment.t) (db : Db.t) : list PaymentSchedule.t :=
  filter (fun p => String.eqb (PaymentSchedule.investment_id p) (Investment.id inv))
         (Db.payment_schedules db).

(** The kinds of payment that repay the principal. *)
Definition is_redemption (p : PaymentSchedule.t) : bool :=
  match PaymentSchedule.payment_type p with
  | PRINCIPAL | FINAL_PAYMENT => true
  | COUPON => false
  end.

(** The number of redemptions in a schedule. *)
Definition redemptions (evs : list PaymentSchedule.t) : nat :=
  List.length (filter is_redemption evs).

(** The exception of [None + relativedelta(months=6)]. *)
Definition no_date_plus_relativedelta : exn :=
  TypeError "unsupported operand type(s) for +: 'NoneType' and 'relativedelta'".

(** A row without its identifier. *)
Definition anonymous (p : PaymentSchedule.t) : PaymentSchedule.t :=
  PaymentSchedule.mk EmptyString (PaymentSchedule.investment_id p)
    (PaymentSchedule.payment_date p) (PaymentSchedule.payment_amount p)
    (PaymentSchedule.payment_type p) (PaymentSchedule.payment_status p)
    (PaymentSchedule.description p) (PaymentSchedule.actual_payment_date p)
    (PaymentSchedule.actual_payment_amount p).

(** The image of the value of an outcome. *)
Definition outcome_map {A B : Type} (f : A -> B) (c : outcome A) : outcome B :=
  match c with
  | Ok a => Ok (f a)
  | Raise e => Raise e
  | Timeout => Timeout
  end.

(** The test [PaymentSchedule.investment_id == investment.id]. *)
Definition of_investment (inv : Investment.t) (p : PaymentSchedule.t) : bool :=
  String.eqb (PaymentSchedule.investment_id p) (Investment.id inv).

(** The test of the active investments of a user (lines 275-277). *)
Definition active_of (current_user : User.t) (i : Investment.t) : bool :=
  String.eqb (Investment.user_id i) (User.id current_user)
  && match Investment.status i with
     | Some s => InvestmentStatus_eqb s ACTIVE
     | None => false
     end.

(** A payment counts as expected when its status is pending or due and
    its investment is an active investment of the user. *)
Definition counted (current_user : User.t) (db : Db.t) (p : PaymentSchedule.t) : bool :=
  pending_or_due p
  && existsb (fun i => active_of current_user i
                       && String.eqb (PaymentSchedule.investment_id p) (Investment.id i))
             (Db.investments db).

(** The terms of an investment: all its columns but the description and
    the status. *)
Definition same_terms (a b : Investment.t) : Prop :=
  Investment.id a = Investment.id b
  /\ Investment.user_id a = Investment.user_id b
  /\ Investment.investment_type a = Investment.investment_type b
  /\ Investment.face_value a = Investment.face_value b
  /\ Investment.purchase_price a = Investment.purchase_price b
  /\ Investment.annual_coupon_rate a = Investment.annual_coupon_rate b
  /\ Investment.issue_date a = Investment.issue_date b
  /\ Investment.purchase_date a = Investment.purchase_date b
  /\ Investment.maturity_date a = Investment.maturity_date b.

(** The order of the joined rows by payment date. *)
Definition date_le (a b : PaymentSchedule.t * Investment.t) : Prop :=
  (PaymentSchedule.payment_date (fst a) <=d PaymentSchedule.payment_date (fst b)) = true.

(** The order of the payment rows by strictly earlier date, and by
    earlier or equal date. *)
Definition date_lt (a b : PaymentSchedule.t) : Prop :=
  (PaymentSchedule.payment_date a <d PaymentSchedule.payment_date b) = true.

Definition date_leq (a b : PaymentSchedule.t) : Prop :=
  (PaymentSchedule.payment_date a <=d PaymentSchedule.payment_date b) = true.

(** The rows that [get_investments] is to list. *)
Definition listed (current_user : User.t) (status_filter : option InvestmentStatus)
  (investment_type : option InvestmentType) (i : Investment.t) : Prop :=
  Investment.user_id i = User.id current_user
  /\ (forall s, status_filter = Some s -> Investment.status i = Some s)
  /\ (forall t, investment_type = Some t -> Investment.investment_type i = t).

(** The columns of a payment that an update leaves alone. *)
Definition same_payment_terms (a b : PaymentSchedule.t) : Prop :=
  PaymentSchedule.id a = PaymentSchedule.id b
  /\ PaymentSchedule.investment_id a = PaymentSchedule.investment_id b
  /\ PaymentSchedule.payment_date a = PaymentSchedule.payment_date b
  /\ PaymentSchedule.payment_amount a = PaymentSchedule.payment_amount b
  /\ PaymentSchedule.payment_type a = PaymentSchedule.payment_type b
  /\ PaymentSchedule.description a = PaymentSchedule.description b.

(** * Sample data *)

Definition jan15_2024 : Date.t := Date.mk 2024 1 15.

Definition jan15_2026 : Date.t := Date.mk 2026 1 15.

Definition aug31_2024 : Date.t := Date.mk 2024 8 31.

Definition aug31_2026 : Date.t := Date.mk 2026 8 31.

Definition mar01_2026 : Date.t := Date.mk 2026 3 1.

Definition user_1 : User.t := User.mk "user-1".

(** The request for a note of face value 100000 at 10%, and the row it
    makes. *)
Definition note_request (issued : option Date.t) (purchased maturity : Date.t)
  : InvestmentCreate.t :=
  InvestmentCreate.mk TREASURY_NOTE (Some "note"%string)
    100000 98000 0.10 issued purchased maturity.

Definition note_of (issued : option Date.t) (purchased maturity : Date.t)
  : Investment.t :=
  new_investment "inv-1" user_1 (note_request issued purchased maturity).

Definition note_2024 : Investment.t := note_of (Some jan15_2024) jan15_2024 jan15_2026.

Definition note_month_end : Investment.t := note_of (Some aug31_2024) aug31_2024 aug31_2026.

(** A note whose term is no whole number of half-years. *)
Definition note_odd_term : Investment.t := note_of (Some jan15_2024) jan15_2024 mar01_2026.

Definition note_unissued : Investment.t := note_of None jan15_2024 jan15_2026.

Definition bill_2024 : Investment.t :=
  Investment.mk "inv-2" "user-1" TREASURY_BILL (Some "bill"%string)
    50000 48500 0 None jan15_2024 (Date.mk 2024 7 15) (Some ACTIVE).

Definition sample_ids (k : nat) : string :=
  "pay-" ++ NilEmpty.string_of_uint (Nat.to_uint k).

Definition other_ids (k : nat) : string :=
  "again-" ++ NilEmpty.string_of_uint (Nat.to_uint k).

(** A database with one active note of [user_1], one payment of 1000
    paid and one of 2000 pending. *)
Definition db_paid_pending : Db.t :=
  Db.mk [note_2024]
    [ PaymentSchedule.mk "p1" "inv-1" (Date.mk 2024 7 15) 1000 COUPON (Some PAID)
        None (Some (Date.mk 2024 7 15)) (Some 1000%Q);
      PaymentSchedule.mk "p2" "inv-1" (Date.mk 2025 1 15) 2000 COUPON (Some PENDING)
        None None None ].

Definition db_note_bill : Db.t :=
  Db.mk [note_2024; bill_2024] [bill_payment sample_ids bill_2024].

(** A pending payment of the sample note on the date [d]. *)
Definition pending_on (id : string) (d : Date.t) : PaymentSchedule.t :=
  PaymentSchedule.mk id "inv-1" d 5000 COUPON (Some PENDING) None None None.

(** The sample note with pending payments 100 days, 10 days and no day
    after 2024-01-15, in this order in the table. *)
Definition db_three_pending : Db.t :=
  Db.mk [note_2024]
    [ pending_on "p100" (Date.mk 2024 4 24);
      pending_on "p10" (Date.mk 2024 1 25);
      pending_on "p0" jan15_2024 ].

(** The module with the missing import added. *)
Definition globals_with_timedelta : list string :=
  "timedelta"%string :: module_globals.

(** A user who owns nothing in the sample stores. *)
Definition user_2 : User.t := User.mk "user-2".


(** * Properties *)

(** ** Decimal arithmetic *)

Lemma digits_upto_spec (fuel : nat) :
  forall n, 1 <= n < 2 ^ Z.of_nat fuel ->
            1 <= Decimal.digits_upto fuel n
            /\ 10 ^ (Decimal.digits_upto fuel n - 1) <= n < 10 ^ Decimal.digits_upto fuel n.
Proof.
  induction fuel as [|fuel IH]; intros n Hn.
  - simpl in Hn. lia.
  - cbn [Decimal.digits_upto]. destruct (Z.ltb_spec n 10) as [Hlt|Hge].
    + change (10 ^ (1 - 1)) with 1. change (10 ^ 1) with 10. lia.
    + assert (Hm : 1 <= n / 10 < 2 ^ Z.of_nat fuel).
      { rewrite Nat2Z.inj_succ, Z.pow_succ_r in Hn by lia.
        split.
        - apply Z.div_le_lower_bound; lia.
        - apply Z.div_lt_upper_bound; lia. }
      destruct (IH _ Hm) as (Hd & Hlo & Hhi).
      set (d := Decimal.digits_upto fuel (n / 10)) in *.
      pose proof (Z.mul_div_le n 10 ltac:(lia)) as H1.
      pose proof (Z.mod_pos_bound n 10 ltac:(lia)) as H2.
      pose proof (Z.div_mod n 10 ltac:(lia)) as H3.
      replace (1 + d - 1) with (Z.succ (d - 1)) by lia.
      replace (1 + d) with (Z.succ d) by lia.
      rewrite !Z.pow_succ_r by lia.
      lia.
Qed.

Lemma digits_spec (n : Z) :
  1 <= n ->
  1 <= Decimal.digits n /\ 10 ^ (Decimal.digits n - 1) <= n < 10 ^ Decimal.digits n.
Proof.
  intros Hn. unfold Decimal.digits. apply digits_upto_spec.
  destruct (Z.log2_spec n ltac:(lia)) as [_ H].
  pose proof (Z.log2_nonneg n).
  rewrite Nat2Z.inj_succ, Z2Nat.id by lia. lia.
Qed.

Section DecimalRounding.

Local Open Scope Q_scope.

Lemma pow10_pos (e : Z) : 0 < Decimal.pow10 e.
Proof. apply Qpower_0_lt. reflexivity. Qed.

Lemma pow10_inject (e : Z) : (0 <= e)%Z -> Decimal.pow10 e == inject_Z (10 ^ e).
Proof. intros H. unfold Decimal.pow10. rewrite Zpower_Qpower by exact H. reflexivity. Qed.

Lemma pow10_plus (a b : Z) : Decimal.pow10 (a + b) == Decimal.pow10 a * Decimal.pow10 b.
Proof. unfold Decimal.pow10. apply Qpower_plus. discriminate. Qed.

Lemma pow10_opp (a : Z) : Decimal.pow10 (- a) == / Decimal.pow10 a.
Proof. unfold Decimal.pow10. apply Qpower_opp. Qed.

Lemma pow10_nz (a : Z) : ~ Decimal.pow10 a == 0.
Proof. intros E. pose proof (pow10_pos a) as H. rewrite E in H. discriminate. Qed.

Lemma pow10_lt_inv (a b : Z) : Decimal.pow10 a < Decimal.pow10 b -> (a < b)%Z.
Proof. intros H. eapply Qpower_lt_compat_l_inv; [exact H | reflexivity]. Qed.

Lemma inject_Z_pos (z : Z) : (0 < z)%Z -> 0 < inject_Z z.
Proof. intros H. change 0 with (inject_Z 0). rewrite <- Zlt_Qlt. exact H. Qed.

(** The leading digit of [q] is at the exponent [adjusted q] or above. *)
Lemma adjusted_le (q : Q) : ~ q == 0 -> Decimal.pow10 (Decimal.adjusted q) <= Qabs q.
Proof.
  intros Hq. unfold Decimal.adjusted.
  set (n := Z.abs (Qnum q)). set (d := Zpos (Qden q)).
  destruct (Qle_bool (Decimal.pow10 (Decimal.digits n - Decimal.digits d)) (Qabs q)) eqn:Hle.
  - apply Qle_bool_iff. exact Hle.
  - assert (Hn : (1 <= n)%Z).
    { unfold n. destruct q as [qn qd]. unfold Qeq in Hq. simpl in *. lia. }
    assert (Hd : (1 <= d)%Z) by (unfold d; lia).
    destruct (digits_spec n Hn) as (Hdn & Hnlo & _).
    destruct (digits_spec d Hd) as (Hdd & _ & Hdhi).
    set (dn := Decimal.digits n) in *. set (dd := Decimal.digits d) in *.
    replace (dn - dd - 1)%Z with ((dn - 1) + - dd)%Z by lia.
    rewrite pow10_plus. unfold Decimal.pow10 at 2. rewrite Qpower_opp.
    fold (Decimal.pow10 dd). rewrite !pow10_inject by lia.
    assert (Habs : Qabs q == inject_Z n / inject_Z d).
    { destruct q as [qn qd]. unfold n, d. simpl. apply Qmake_Qdiv. }
    rewrite Habs.
    assert (H10 : (0 < 10 ^ dd)%Z) by (apply Z.pow_pos_nonneg; lia).
    apply Qle_shift_div_l; [apply inject_Z_pos; lia|].
    change (inject_Z (10 ^ (dn - 1)) * / inject_Z (10 ^ dd) * inject_Z d)
      with (inject_Z (10 ^ (dn - 1)) / inject_Z (10 ^ dd) * inject_Z d).
    assert (E : inject_Z (10 ^ (dn - 1)) / inject_Z (10 ^ dd) * inject_Z d
                == inject_Z (10 ^ (dn - 1) * d) / inject_Z (10 ^ dd)).
    { rewrite inject_Z_mult. field. intros H0.
      assert (Hlt : 0 < inject_Z (10 ^ dd)) by (apply inject_Z_pos; lia).
      rewrite H0 in Hlt. discriminate. }
    rewrite E. apply Qle_shift_div_r; [apply inject_Z_pos; lia|].
    rewrite <- inject_Z_mult, <- Zle_Qle.
    assert (0 <= 10 ^ (dn - 1))%Z by (apply Z.pow_nonneg; lia).
    nia.
Qed.

Lemma round_half_even_Z (x : Q) (z : Z) : x == inject_Z z -> Decimal.round_half_even x = z.
Proof.
  intros H. unfold Decimal.round_half_even.
  rewrite (Qfloor_comp _ _ H), Qfloor_Z.
  assert (Hlt : x - inject_Z z < 1 # 2) by (rewrite H; ring_simplify; reflexivity).
  rewrite (proj1 (Qlt_alt _ _) Hlt). reflexivity.
Qed.

Lemma sgn_abs (q : Q) : inject_Z (Z.sgn (Qnum q)) * Qabs q == q.
Proof.
  destruct q as [n d]. unfold Qeq. simpl. destruct n; simpl; reflexivity.
Qed.

(** A number of at most [prec] significant digits is not changed by the
    rounding of the context. *)
Lemma ctx_round_exact (q : Q) (m k : Z) :
  (0 <= k)%Z -> (Z.abs m < 10 ^ Decimal.prec)%Z ->
  q == inject_Z m / Decimal.pow10 k ->
  Decimal.ctx_round q == q.
Proof.
  intros Hk Hm Hq. unfold Decimal.ctx_round.
  destruct (Qeq_bool q 0) eqn:H0.
  - apply Qeq_bool_eq in H0. symmetry. exact H0.
  - assert (Hne : ~ q == 0).
    { intros E. apply Qeq_eq_bool in E. congruence. }
    pose proof (adjusted_le q Hne) as Hadj.
    set (a := Decimal.adjusted q) in *.
    assert (Habs : Qabs q == inject_Z (Z.abs m) / Decimal.pow10 k).
    { rewrite Hq. unfold Qdiv. rewrite Qabs_Qmult, Qabs_Qinv.
      rewrite (Qabs_pos (Decimal.pow10 k)) by (apply Qlt_le_weak, pow10_pos).
      destruct m; reflexivity. }
    assert (Hlt : (a < Decimal.prec - k)%Z).
    { apply pow10_lt_inv. eapply Qle_lt_trans; [exact Hadj|].
      rewrite Habs.
      replace (Decimal.prec - k)%Z with (Decimal.prec + - k)%Z by lia.
      rewrite pow10_plus, pow10_opp. unfold Qdiv. apply Qmult_lt_r.
      - apply Qinv_lt_0_compat, pow10_pos.
      - rewrite pow10_inject by (unfold Decimal.prec; lia).
        rewrite <- Zlt_Qlt. exact Hm. }
    set (e := (a - (Decimal.prec - 1))%Z).
    set (j := (- k - e)%Z).
    assert (Hj : (0 <= j)%Z) by (unfold j, e; lia).
    assert (Hint : Qabs q / Decimal.pow10 e == inject_Z (Z.abs m * 10 ^ j)).
    { rewrite Habs, inject_Z_mult, <- (pow10_inject j Hj).
      unfold j. replace (- k - e)%Z with (- k + - e)%Z by lia.
      rewrite pow10_plus, !pow10_opp. field.
      split; apply pow10_nz. }
    rewrite (round_half_even_Z _ _ Hint), Qred_correct, inject_Z_mult.
    rewrite <- Hint.
    transitivity (inject_Z (Z.sgn (Qnum q)) * Qabs q); [|apply sgn_abs].
    field. apply pow10_nz.
Qed.

End DecimalRounding.

(** ** Dates *)

Ltac date_cases :=
  unfold Date.leb, Date.ltb, Date.eqb, Date.compare in *;
  repeat match goal with
         | |- context [Z.compare ?x ?y] => destruct (Z.compare_spec x y)
         | H : context [Z.compare ?x ?y] |- _ => destruct (Z.compare_spec x y)
         end;
  cbn [Date.year Date.month Date.day] in *;
  try discriminate; try reflexivity; try lia.

Lemma date_eqb_eq (a b : Date.t) : (a =d b) = true <-> a = b.
Proof.
  split.
  - destruct a as [ya ma da], b as [yb mb db]. intros H. date_cases.
    subst. reflexivity.
  - intros ->. destruct b as [y m d]. date_cases.
Qed.

Lemma date_eqb_refl (a : Date.t) : (a =d a) = true.
Proof. apply date_eqb_eq. reflexivity. Qed.

Lemma date_ltb_leb (a b : Date.t) : (a <d b) = true -> (a <=d b) = true.
Proof. destruct a, b. intros H. date_cases. Qed.

Lemma date_ltb_not_leb (a b : Date.t) : (a <d b) = negb (b <=d a).
Proof. destruct a, b. date_cases. Qed.

Lemma date_ltb_not_eqb (a b : Date.t) : (a <d b) = true -> (a =d b) = false.
Proof. destruct a, b. intros H. date_cases. Qed.

Lemma date_ltb_irrefl (a : Date.t) : (a <d a) = false.
Proof. destruct a. date_cases. Qed.

Lemma date_leb_cases (a b : Date.t) :
  (a <=d b) = true -> (a <d b) = true \/ a = b.
Proof.
  destruct a as [ya ma da], b as [yb mb db]. intros H.
  date_cases; try (left; reflexivity). right. subst. reflexivity.
Qed.

Lemma date_ltb_trans (a b c : Date.t) :
  (a <d b) = true -> (b <d c) = true -> (a <d c) = true.
Proof. destruct a, b, c. intros H1 H2. date_cases. Qed.

Lemma date_leb_ltb_trans (a b c : Date.t) :
  (a <=d b) = true -> (b <d c) = true -> (a <d c) = true.
Proof. destruct a, b, c. intros H1 H2. date_cases. Qed.

(** Six months later is strictly later, whatever the date. *)
Lemma shift_6_later (d : Date.t) : (d <d Date.shift_months 6 d) = true.
Proof.
  destruct d as [y m dd]. unfold Date.shift_months.
  cbn [Date.year Date.month Date.day].
  change (6 / 12) with 0. change (6 mod 12) with 6.
  destruct (Z.ltb_spec 12 (m + 6)); date_cases.
Qed.

Lemma valid_month_ok (d : Date.t) : Date.valid d = true -> month_ok d.
Proof. unfold Date.valid, month_ok. intros H. lia. Qed.

Lemma valid_year (d : Date.t) :
  Date.valid d = true -> Date.MINYEAR <= Date.year d <= Date.MAXYEAR.
Proof. unfold Date.valid. intros H. lia. Qed.

(** A shift by [n] months moves the month index by [n] and keeps the
    month within the year. *)
Lemma shift_months_index (n : Z) (d : Date.t) :
  0 <= n -> month_ok d ->
  Date.month_index (Date.shift_months n d) = Date.month_index d + n
  /\ month_ok (Date.shift_months n d).
Proof.
  unfold month_ok, Date.month_index, Date.shift_months. intros Hn Hm.
  pose proof (Z.div_mod n 12 ltac:(lia)) as Hdm.
  pose proof (Z.mod_pos_bound n 12 ltac:(lia)) as Hb.
  destruct (Z.ltb_spec 12 (Date.month d + n mod 12));
    cbn [Date.year Date.month Date.day]; lia.
Qed.

Lemma shift_months_day (n : Z) (d : Date.t) :
  Date.day d <= 28 -> Date.day (Date.shift_months n d) = Date.day d.
Proof.
  intros Hd. unfold Date.shift_months.
  destruct (12 <? Date.month d + n mod 12); cbn [Date.year Date.month Date.day];
    unfold Date.days_in_month;
    repeat match goal with |- context [if ?b then _ else _] => destruct b end;
    lia.
Qed.

Lemma month_index_inj (a b : Date.t) :
  month_ok a -> month_ok b ->
  Date.month_index a = Date.month_index b -> Date.day a = Date.day b -> a = b.
Proof.
  unfold month_ok, Date.month_index. destruct a as [ya ma da], b as [yb mb db].
  cbn [Date.year Date.month Date.day]. intros Ha Hb Hi Hd.
  assert (ya = yb) by lia. assert (ma = mb) by lia. subst. reflexivity.
Qed.

Lemma leb_month_index (a b : Date.t) :
  month_ok a -> month_ok b -> (a <=d b) = true ->
  Date.month_index a <= Date.month_index b.
Proof.
  unfold month_ok, Date.month_index. destruct a as [ya ma da], b as [yb mb db].
  cbn [Date.year Date.month Date.day]. intros Ha Hb H. date_cases.
Qed.

Lemma leb_year (a b : Date.t) : (a <=d b) = true -> Date.year a <= Date.year b.
Proof. destruct a, b. intros H. date_cases. Qed.

Lemma shift_6_year (d : Date.t) :
  month_ok d ->
  Date.year d <= Date.year (Date.shift_months 6 d) <= Date.year d + 1.
Proof.
  unfold month_ok, Date.shift_months. change (6 / 12) with 0.
  change (6 mod 12) with 6. intros H.
  destruct (Z.ltb_spec 12 (Date.month d + 6));
    cbn [Date.year Date.month Date.day]; lia.
Qed.

Lemma candidate_S (anchor : Date.t) (k : nat) :
  candidate anchor (S k) = Date.shift_months 6 (candidate anchor k).
Proof. reflexivity. Qed.

Lemma candidate_shift (anchor : Date.t) (k : nat) :
  candidate (Date.shift_months 6 anchor) k = candidate anchor (S k).
Proof.
  unfold candidate. induction k as [|k IH]; simpl; [reflexivity|].
  rewrite IH. reflexivity.
Qed.

Lemma candidate_month_ok (anchor : Date.t) (k : nat) :
  month_ok anchor -> month_ok (candidate anchor k).
Proof.
  intros H. induction k as [|k IH]; [exact H|].
  rewrite candidate_S. apply shift_months_index; [lia | exact IH].
Qed.

Lemma candidate_increasing (anchor : Date.t) (j k : nat) :
  (j < k)%nat -> (candidate anchor j <d candidate anchor k) = true.
Proof.
  induction 1 as [|k Hle IH].
  - rewrite candidate_S. apply shift_6_later.
  - rewrite candidate_S. eapply date_ltb_trans; [exact IH | apply shift_6_later].
Qed.

(** Without a day above 28 nothing is ever clamped, and the [k]-th
    candidate is the anchor moved [6 * k] months ahead in one step. *)
Lemma candidate_unclamped (anchor : Date.t) (k : nat) :
  month_ok anchor -> Date.day anchor <= 28 ->
  candidate anchor k = Date.shift_months (6 * Z.of_nat k) anchor.
Proof.
  intros Hm Hd.
  assert (Hday : forall j, Date.day (candidate anchor j) = Date.day anchor).
  { induction j as [|j IH]; [reflexivity|].
    rewrite candidate_S, shift_months_day; lia. }
  assert (Hidx : forall j, Date.month_index (candidate anchor j)
                           = Date.month_index anchor + 6 * Z.of_nat j).
  { induction j as [|j IH]; [simpl; lia|].
    rewrite candidate_S.
    destruct (shift_months_index 6 (candidate anchor j)) as [E _];
      [lia | apply candidate_month_ok; exact Hm |].
    rewrite E, IH. lia. }
  destruct (shift_months_index (6 * Z.of_nat k) anchor) as [E M]; [lia | exact Hm |].
  apply month_index_inj.
  - apply candidate_month_ok; exact Hm.
  - exact M.
  - rewrite Hidx, E. reflexivity.
  - rewrite Hday, shift_months_day; [reflexivity | exact Hd].
Qed.

Lemma date_leb_trans_lt (a b c : Date.t) :
  (a <d b) = true -> (b <=d c) = true -> (a <=d c) = true.
Proof. destruct a, b, c. intros H1 H2. date_cases. Qed.

Lemma add_months_shift (n : Z) (d r : Date.t) :
  Date.add_months n d = Ok r -> r = Date.shift_months n d.
Proof.
  unfold Date.add_months.
  destruct (_ && _); [|discriminate]. intros H. injection H as <-. reflexivity.
Qed.

Lemma date_leb_refl (a : Date.t) : (a <=d a) = true.
Proof. destruct a. date_cases. Qed.

Lemma date_leb_total (a b : Date.t) : (a <=d b) = false -> (b <=d a) = true.
Proof. destruct a, b. intros H. date_cases. Qed.

Lemma date_leb_trans (a b c : Date.t) :
  (a <=d b) = true -> (b <=d c) = true -> (a <=d c) = true.
Proof. destruct a, b, c. intros H1 H2. date_cases. Qed.

(** ** The loop of the note schedule *)

Section NoteLoop.

Variable uuid4 : nat -> string.
Variable inv : Investment.t.

Lemma add_months_6_ok (d : Date.t) :
  month_ok d -> Date.MINYEAR <= Date.year d < Date.MAXYEAR ->
  Date.add_months 6 d = Ok (Date.shift_months 6 d).
Proof.
  intros Hm Hy. unfold Date.add_months.
  pose proof (shift_6_year d Hm) as Hs.
  destruct (Z.leb_spec Date.MINYEAR (Date.year (Date.shift_months 6 d)));
    destruct (Z.leb_spec (Date.year (Date.shift_months 6 d)) Date.MAXYEAR);
    try reflexivity; unfold Date.MINYEAR, Date.MAXYEAR in *; lia.
Qed.

(** With the budget of [loop_budget] the loop runs to its end: it
    creates one row per candidate date up to the maturity, and stops at
    the first candidate after it. *)
Lemma note_payments_run (coupon_amount : Q) (fuel : nat) :
  forall (current_date : Date.t) (payment_count : nat),
    month_ok current_date ->
    month_ok (Investment.maturity_date inv) ->
    Date.MINYEAR <= Date.year current_date ->
    Date.year (Investment.maturity_date inv) < Date.MAXYEAR ->
    (loop_budget inv current_date <= fuel)%nat ->
    exists n : nat,
      note_payments uuid4 inv fuel coupon_amount current_date payment_count
      = Ok (map (fun j => payment_at uuid4 inv coupon_amount (candidate current_date j)
                            (payment_count + j))
                (seq 0 n))
      /\ (forall j, (j < n)%nat ->
                    (candidate current_date j <=d Investment.maturity_date inv) = true)
      /\ (Investment.maturity_date inv <d candidate current_date n) = true.
Proof.
  induction fuel as [|fuel IH]; intros cur cnt Hcur Hmat Hy Hmy Hfuel.
  - exists O. simpl.
    destruct (cur <=d Investment.maturity_date inv) eqn:Hle.
    + pose proof (leb_month_index _ _ Hcur Hmat Hle).
      unfold loop_budget in Hfuel. lia.
    + repeat split; [intros j Hj; lia|].
      rewrite date_ltb_not_leb. simpl. rewrite Hle. reflexivity.
  - simpl note_payments.
    destruct (cur <=d Investment.maturity_date inv) eqn:Hle.
    + pose proof (leb_year _ _ Hle) as Hyle.
      rewrite add_months_6_ok by (try assumption; lia). simpl bind.
      destruct (shift_months_index 6 cur ltac:(lia) Hcur) as [Hidx Hok].
      pose proof (shift_6_year cur Hcur) as Hsy.
      destruct (IH (Date.shift_months 6 cur) (S cnt) Hok Hmat ltac:(lia) Hmy)
        as (n & Hrun & Hin & Hout).
      { unfold loop_budget in *. rewrite Hidx.
        pose proof (leb_month_index _ _ Hcur Hmat Hle). lia. }
      exists (S n). rewrite Hrun. simpl bind. repeat split.
      * f_equal. cbn [seq map]. rewrite <- seq_shift, map_map.
        rewrite Nat.add_0_r. f_equal. apply map_ext. intros j.
        rewrite candidate_shift, Nat.add_succ_r. reflexivity.
      * intros [|j] Hj; [exact Hle|].
        rewrite <- candidate_shift. apply Hin. lia.
      * rewrite <- candidate_shift. exact Hout.
    + exists O. repeat split; [intros j Hj; lia|].
      rewrite date_ltb_not_leb. simpl. rewrite Hle. reflexivity.
Qed.

(** On dates whose months are valid the budget is never used up. *)
Lemma note_payments_no_timeout (coupon_amount : Q) (fuel : nat) :
  forall (current_date : Date.t) (payment_count : nat),
    month_ok current_date ->
    month_ok (Investment.maturity_date inv) ->
    (loop_budget inv current_date <= fuel)%nat ->
    note_payments uuid4 inv fuel coupon_amount current_date payment_count <> Timeout.
Proof.
  induction fuel as [|fuel IH]; intros cur cnt Hcur Hmat Hfuel; simpl note_payments.
  - destruct (cur <=d Investment.maturity_date inv) eqn:Hle; [|discriminate].
    pose proof (leb_month_index _ _ Hcur Hmat Hle).
    unfold loop_budget in Hfuel. lia.
  - destruct (cur <=d Investment.maturity_date inv) eqn:Hle; [|discriminate].
    destruct (Date.add_months 6 cur) as [next| |] eqn:Hadd; simpl bind;
      try discriminate.
    + apply add_months_shift in Hadd. subst next.
      destruct (shift_months_index 6 cur ltac:(lia) Hcur) as [Hidx Hok].
      assert (Hnext : note_payments uuid4 inv fuel coupon_amount
                        (Date.shift_months 6 cur) (S cnt) <> Timeout).
      { apply IH; [exact Hok | exact Hmat |].
        unfold loop_budget in *. rewrite Hidx.
        pose proof (leb_month_index _ _ Hcur Hmat Hle). lia. }
      destruct (note_payments uuid4 inv fuel coupon_amount
                  (Date.shift_months 6 cur) (S cnt));
        simpl; [discriminate | discriminate | contradiction].
    + unfold Date.add_months in Hadd. destruct (_ && _); discriminate.
Qed.

End NoteLoop.

(** ** The schedule of a note *)

Lemma div_by_2 (x : Q) : Decimal.div x 2 = Ok (Decimal.quo x 2).
Proof. reflexivity. Qed.

(** On a face value of [Numeric(15, 2)] and a rate of [Numeric(5, 4)]
    the division by two is exact. *)
Lemma coupon_exact (inv : Investment.t) (F R : Z) :
  Z.abs F < 10 ^ 15 -> Z.abs R < 10 ^ 5 ->
  (Investment.face_value inv == inject_Z F / 100)%Q ->
  (Investment.annual_coupon_rate inv == inject_Z R / 10000)%Q ->
  (coupon_of inv
   == Investment.face_value inv * Investment.annual_coupon_rate inv / 2)%Q.
Proof.
  intros HF HR Hfv Hrate. unfold coupon_of, Decimal.quo.
  apply (ctx_round_exact _ (F * R * 5) 7); [lia | |].
  - unfold Decimal.prec. rewrite !Z.abs_mul. change (Z.abs 5) with 5.
    pose proof (Z.abs_nonneg F). pose proof (Z.abs_nonneg R).
    assert (Z.abs F * Z.abs R < 10 ^ 15 * 10 ^ 5) by nia.
    change (10 ^ 15 * 10 ^ 5) with (10 ^ 20) in *.
    change (10 ^ 28) with (10 ^ 20 * 10 ^ 8). change (10 ^ 8) with 100000000. lia.
  - assert (E : (Decimal.pow10 7 == 10000000)%Q) by reflexivity.
    rewrite E, Hfv, Hrate, !inject_Z_mult. field.
Qed.

(** C1 (as amended).  For a treasury note with an issue date, and dates
    before year 9999, the rows of the schedule are those of the
    candidates 1 to [n]: the issue date moved six months ahead once,
    twice, ..., each step clamping the day to the length of its month;
    these are exactly the candidates on or before the maturity.  A row
    before the maturity is a coupon of [face_value * rate / 2], a row on
    the maturity is the final payment of the coupon plus the face value.
    When the issue day is at most 28 the [k]-th candidate is the issue
    date moved [6 * k] months ahead.  On a face value of two decimals and
    a rate of four, as the columns hold them, the coupon is the exact
    half of their product.  The note of 2024-01-15 has the four rows of
    the example. *)
Theorem note_schedule_cadence :
  (forall (uuid4 : nat -> string) (inv : Investment.t) (anchor : Date.t),
      Investment.investment_type inv = TREASURY_NOTE ->
      Investment.issue_date inv = Some anchor ->
      Date.valid anchor = true ->
      Date.valid (Investment.maturity_date inv) = true ->
      Date.year anchor < Date.MAXYEAR ->
      Date.year (Investment.maturity_date inv) < Date.MAXYEAR ->
      exists n : nat,
        new_payments uuid4 inv
        = Ok (map (fun j => payment_at uuid4 inv (coupon_of inv)
                              (candidate anchor (S j)) j)
                  (seq 0 n))
        /\ (forall k, (1 <= k <= n)%nat ->
                      (candidate anchor k <=d Investment.maturity_date inv) = true)
        /\ (forall k, (n < k)%nat ->
                      (Investment.maturity_date inv <d candidate anchor k) = true)
        /\ (forall c created,
               (c <d Investment.maturity_date inv) = true ->
               let p := payment_at uuid4 inv (coupon_of inv) c created in
               PaymentSchedule.payment_date p = c
               /\ PaymentSchedule.payment_type p = COUPON
               /\ PaymentSchedule.payment_amount p = coupon_of inv)
        /\ (forall created,
               let p := payment_at uuid4 inv (coupon_of inv)
                          (Investment.maturity_date inv) created in
               PaymentSchedule.payment_date p = Investment.maturity_date inv
               /\ PaymentSchedule.payment_type p = FINAL_PAYMENT
               /\ PaymentSchedule.payment_amount p
                  = (coupon_of inv + Investment.face_value inv)%Q)
        /\ (Date.day anchor <= 28 ->
            forall k, candidate anchor k
                      = Date.shift_months (6 * Z.of_nat k) anchor)
        /\ (forall F R : Z,
               Z.abs F < 10 ^ 15 -> Z.abs R < 10 ^ 5 ->
               (Investment.face_value inv == inject_Z F / 100)%Q ->
               (Investment.annual_coupon_rate inv == inject_Z R / 10000)%Q ->
               (coupon_of inv
                == Investment.face_value inv * Investment.annual_coupon_rate inv / 2)%Q))
  /\ (forall uuid4 : nat -> string,
         new_payments uuid4 note_2024
         = Ok [ PaymentSchedule.mk (uuid4 0%nat) "inv-1" (Date.mk 2024 7 15) 5000
                  COUPON (Some PENDING)
                  (Some "Semi-annual coupon payment #1"%string) None None;
                PaymentSchedule.mk (uuid4 1%nat) "inv-1" (Date.mk 2025 1 15) 5000
                  COUPON (Some PENDING)
                  (Some "Semi-annual coupon payment #2"%string) None None;
                PaymentSchedule.mk (uuid4 2%nat) "inv-1" (Date.mk 2025 7 15) 5000
                  COUPON (Some PENDING)
                  (Some "Semi-annual coupon payment #3"%string) None None;
                PaymentSchedule.mk (uuid4 3%nat) "inv-1" (Date.mk 2026 1 15) 105000
                  FINAL_PAYMENT (Some PENDING)
                  (Some "Final coupon payment + Principal repayment"%string)
                  None None ]).
Proof.
  split.
  - intros uuid4 inv anchor Htype Hissue Hva Hvm Hya Hym.
    pose proof (valid_month_ok _ Hva) as Hma.
    pose proof (valid_month_ok _ Hvm) as Hmm.
    pose proof (valid_year _ Hva) as Hyr.
    destruct (shift_months_index 6 anchor ltac:(lia) Hma) as [_ Hok].
    pose proof (shift_6_year anchor Hma) as Hsy.
    destruct (note_payments_run uuid4 inv (coupon_of inv)
                (loop_budget inv (Date.shift_months 6 anchor))
                (Date.shift_months 6 anchor) O Hok Hmm ltac:(lia) Hym (le_n _))
      as (n & Hrun & Hin & Hout).
    exists n. repeat split.
    + unfold new_payments. rewrite Htype, div_by_2, Hissue. simpl bind.
      unfold plus_relativedelta. rewrite add_months_6_ok by (try assumption; lia).
      simpl bind. fold (coupon_of inv). rewrite Hrun. f_equal.
      apply map_ext. intros j. rewrite candidate_shift. reflexivity.
    + intros [|k] Hk; [lia|]. rewrite <- candidate_shift. apply Hin. lia.
    + intros k Hk. rewrite candidate_shift in Hout.
      destruct (Nat.eq_dec k (S n)) as [->|Hne]; [exact Hout|].
      eapply date_ltb_trans; [exact Hout|].
      apply candidate_increasing. lia.
    + unfold payment_at. rewrite (date_ltb_not_eqb _ _ H). reflexivity.
    + unfold payment_at. rewrite (date_ltb_not_eqb _ _ H). reflexivity.
    + unfold payment_at. rewrite (date_ltb_not_eqb _ _ H). reflexivity.
    + unfold payment_at. rewrite date_eqb_refl. reflexivity.
    + unfold payment_at. rewrite date_eqb_refl. reflexivity.
    + unfold payment_at. rewrite date_eqb_refl. reflexivity.
    + intros Hd k. apply candidate_unclamped; assumption.
    + apply coupon_exact.
  - intros uuid4. vm_compute. reflexivity.
Qed.

Lemma note_schedule_cadence_witness :
  Investment.investment_type note_2024 = TREASURY_NOTE
  /\ Investment.issue_date note_2024 = Some jan15_2024
  /\ Date.valid jan15_2024 = true
  /\ Date.valid (Investment.maturity_date note_2024) = true
  /\ Date.year jan15_2024 < Date.MAXYEAR
  /\ Date.year (Investment.maturity_date note_2024) < Date.MAXYEAR
  /\ exists n : nat,
      new_payments sample_ids note_2024
      = Ok (map (fun j => payment_at sample_ids note_2024 (coupon_of note_2024)
                            (candidate jan15_2024 (S j)) j)
                (seq 0 n)).
Proof.
  repeat (split; [reflexivity|]).
  destruct (proj1 note_schedule_cadence sample_ids note_2024 jan15_2024)
    as (n & H & _); try reflexivity.
  exists n. exact H.
Defined.

(** On a month-end anchor the candidates drift: the second candidate of
    an anchor on 2024-08-31 is 2025-08-28, not the anchor moved twelve
    months ahead, and no candidate meets the maturity 2026-08-31. *)
Lemma note_month_end_drift :
  Date.shift_months 12 aug31_2024 = Date.mk 2025 8 31
  /\ Date.shift_months 24 aug31_2024 = Investment.maturity_date note_month_end
  /\ exists evs,
      new_payments sample_ids note_month_end = Ok evs
      /\ map (fun p => (PaymentSchedule.payment_date p, PaymentSchedule.payment_type p)) evs
         = [ (Date.mk 2025 2 28, COUPON); (Date.mk 2025 8 28, COUPON);
             (Date.mk 2026 2 28, COUPON); (Date.mk 2026 8 28, COUPON) ]
      /\ map PaymentSchedule.payment_date evs
         <> map (fun k => Date.shift_months (6 * k) aug31_2024) [1; 2; 3; 4].
Proof.
  split; [reflexivity|]. split; [reflexivity|].
  eexists. split; [vm_compute; reflexivity|].
  split; [reflexivity|]. vm_compute. discriminate.
Qed.

(** ** The schedule of a bill *)

Lemma filter_app_split {A : Type} (f : A -> bool) (l l' : list A) :
  Forall (fun x => f x = true) l' ->
  filter f (filter (fun x => negb (f x)) l ++ l') = l'.
Proof.
  intros H. rewrite filter_app.
  assert (E : filter f (filter (fun x => negb (f x)) l) = []).
  { induction l as [|x l IH]; [reflexivity|]. simpl.
    destruct (f x) eqn:Hx; simpl; [exact IH|]. rewrite Hx. exact IH. }
  rewrite E. simpl. induction H as [|x l' Hx _ IH]; [reflexivity|].
  simpl. rewrite Hx, IH. reflexivity.
Qed.

(** C2.  A treasury bill gets exactly one payment: on the maturity date,
    of the face value, of kind principal; after the call it is the whole
    persisted schedule of the bill. *)
Theorem bill_schedule (uuid4 : nat -> string) (inv : Investment.t) (db : Db.t) :
  Investment.investment_type inv = TREASURY_BILL ->
  exists p : PaymentSchedule.t,
    new_payments uuid4 inv = Ok [p]
    /\ PaymentSchedule.payment_date p = Investment.maturity_date inv
    /\ PaymentSchedule.payment_amount p = Investment.face_value inv
    /\ PaymentSchedule.payment_type p = PRINCIPAL
    /\ exists db', generate_payment_schedule uuid4 inv db = Ok db'
                   /\ schedule_of inv db' = [p].
Proof.
  intros Htype. exists (bill_payment uuid4 inv).
  assert (E : new_payments uuid4 inv = Ok [bill_payment uuid4 inv]).
  { unfold new_payments. rewrite Htype. reflexivity. }
  repeat split; try exact E.
  unfold generate_payment_schedule. rewrite E. simpl bind.
  eexists. split; [reflexivity|].
  unfold schedule_of. cbn [Db.payment_schedules].
  apply (filter_app_split
           (fun p => String.eqb (PaymentSchedule.investment_id p) (Investment.id inv))).
  constructor; [|constructor]. apply String.eqb_refl.
Qed.

Lemma bill_schedule_witness :
  Investment.investment_type bill_2024 = TREASURY_BILL
  /\ exists p : PaymentSchedule.t,
      new_payments sample_ids bill_2024 = Ok [p]
      /\ PaymentSchedule.payment_date p = Date.mk 2024 7 15
      /\ PaymentSchedule.payment_amount p = 50000%Q
      /\ PaymentSchedule.payment_type p = PRINCIPAL.
Proof.
  split; [reflexivity|].
  destruct (bill_schedule sample_ids bill_2024 (Db.mk [bill_2024] []) eq_refl)
    as (p & H1 & H2 & H3 & H4 & _).
  exists p. repeat split; assumption.
Defined.

(** ** Redemption of the principal *)

Section Redemption.

Variable uuid4 : nat -> string.
Variable inv : Investment.t.

(** Whatever the loop returns, it holds at most one redemption, dated
    at the maturity, and it holds one exactly when it has a row on the
    maturity date. *)
Lemma note_payments_redemption (coupon_amount : Q) (fuel : nat) :
  forall (current_date : Date.t) (payment_count : nat) evs,
    note_payments uuid4 inv fuel coupon_amount current_date payment_count = Ok evs ->
    (redemptions evs <= 1)%nat
    /\ Forall (fun p => is_redemption p = true ->
                        PaymentSchedule.payment_date p = Investment.maturity_date inv
                        /\ PaymentSchedule.payment_type p = FINAL_PAYMENT) evs
    /\ (redemptions evs = 1%nat
        <-> In (Investment.maturity_date inv) (map PaymentSchedule.payment_date evs)).
Proof.
  unfold redemptions.
  induction fuel as [|fuel IH]; intros cur cnt evs; simpl note_payments.
  - destruct (cur <=d _); [discriminate|]. intros H. injection H as <-.
    simpl. split; [lia|]. split; [constructor|]. split; [discriminate | contradiction].
  - destruct (cur <=d _) eqn:Hle.
    2:{ intros H. injection H as <-. simpl.
        split; [lia|]. split; [constructor|]. split; [discriminate | contradiction]. }
    destruct (Date.add_months 6 cur) as [next| |] eqn:Hadd; simpl bind; try discriminate.
    apply add_months_shift in Hadd. subst next.
    destruct (note_payments uuid4 inv fuel coupon_amount (Date.shift_months 6 cur) (S cnt))
      as [rest| |] eqn:Hrest; simpl bind; try discriminate.
    intros H. injection H as <-.
    destruct (cur =d Investment.maturity_date inv) eqn:Heq.
    + apply date_eqb_eq in Heq.
      assert (rest = []) as ->.
      { assert (Hgt : (Date.shift_months 6 cur <=d Investment.maturity_date inv) = false).
        { rewrite <- Heq. pose proof (shift_6_later cur) as Hl.
          rewrite date_ltb_not_leb in Hl.
          destruct (Date.shift_months 6 cur <=d cur); [discriminate | reflexivity]. }
        destruct fuel; simpl in Hrest; rewrite Hgt in Hrest;
          injection Hrest as <-; reflexivity. }
      simpl. repeat split; try lia.
      * constructor; [|constructor]. intros _. split; [exact Heq | reflexivity].
      * intros _. left. exact Heq.
    + destruct (IH _ _ _ Hrest) as (H1 & H2 & H3).
      simpl. repeat split.
      * exact H1.
      * constructor; [discriminate | exact H2].
      * intros H. right. apply H3. exact H.
      * intros [H|H]; [|apply H3; exact H].
        subst cur. rewrite date_eqb_refl in Heq. discriminate.
Qed.

(** Every row of the loop is dated at a candidate, and every candidate
    up to the maturity has its row. *)
Lemma note_payments_dates (coupon_amount : Q) (fuel : nat) :
  forall (current_date : Date.t) (payment_count : nat) evs,
    note_payments uuid4 inv fuel coupon_amount current_date payment_count = Ok evs ->
    forall d, In d (map PaymentSchedule.payment_date evs)
              <-> exists j, d = candidate current_date j
                            /\ (d <=d Investment.maturity_date inv) = true.
Proof.
  induction fuel as [|fuel IH]; intros cur cnt evs; simpl note_payments.
  - destruct (cur <=d _) eqn:Hle; [discriminate|]. intros H. injection H as <-.
    intros d. split; [contradiction|]. intros (j & -> & Hj).
    destruct j as [|j]; [simpl in Hj; congruence|].
    pose proof (candidate_increasing cur 0 (S j) ltac:(lia)) as Hinc.
    pose proof (date_leb_trans_lt _ _ _ Hinc Hj). simpl in *. congruence.
  - destruct (cur <=d _) eqn:Hle.
    2:{ intros H. injection H as <-.
        intros d. split; [contradiction|]. intros (j & -> & Hj).
        destruct j as [|j]; [simpl in Hj; congruence|].
        pose proof (candidate_increasing cur 0 (S j) ltac:(lia)) as Hinc.
        pose proof (date_leb_trans_lt _ _ _ Hinc Hj). simpl in *. congruence. }
    destruct (Date.add_months 6 cur) as [next| |] eqn:Hadd; simpl bind; try discriminate.
    apply add_months_shift in Hadd. subst next.
    destruct (note_payments uuid4 inv fuel coupon_amount (Date.shift_months 6 cur) (S cnt))
      as [rest| |] eqn:Hrest; simpl bind; try discriminate.
    intros H. injection H as <-. intros d.
    assert (Hd : PaymentSchedule.payment_date
                   (if cur =d Investment.maturity_date inv
                    then final_payment uuid4 inv coupon_amount cur cnt
                    else coupon_payment uuid4 inv coupon_amount cur cnt (S cnt)) = cur)
      by (destruct (cur =d _); reflexivity).
    simpl map. rewrite Hd. simpl In. rewrite (IH _ _ _ Hrest d). split.
    + intros [<-|(j & -> & Hj)].
      * exists O. split; [reflexivity | exact Hle].
      * exists (S j). rewrite <- candidate_shift. split; [reflexivity | exact Hj].
    + intros ([|j] & -> & Hj); [left; reflexivity|].
      right. exists j. rewrite candidate_shift. split; [reflexivity | exact Hj].
Qed.

End Redemption.

(** C3 (as amended).  A generated schedule holds at most one payment of
    kind principal or final-payment, and such a payment is dated at the
    maturity.  A bill has exactly one.  A note has one exactly when one of
    its six-month candidates falls on the maturity date, and none
    otherwise. *)
Theorem redemption_at_most_once (uuid4 : nat -> string) (inv : Investment.t)
  (evs : list PaymentSchedule.t) :
  new_payments uuid4 inv = Ok evs ->
  (redemptions evs <= 1)%nat
  /\ (forall p, In p evs -> is_redemption p = true ->
                PaymentSchedule.payment_date p = Investment.maturity_date inv)
  /\ (Investment.investment_type inv = TREASURY_BILL -> redemptions evs = 1%nat)
  /\ (forall anchor,
         Investment.investment_type inv = TREASURY_NOTE ->
         Investment.issue_date inv = Some anchor ->
         (redemptions evs = 1%nat
          <-> exists k, (1 <= k)%nat
                        /\ candidate anchor k = Investment.maturity_date inv)).
Proof.
  unfold new_payments. destruct (Investment.investment_type inv) eqn:Htype.
  - rewrite div_by_2. simpl bind.
    destruct (Investment.issue_date inv) as [a|] eqn:Hissue; simpl; [|discriminate].
    destruct (Date.add_months 6 a) as [cur| |] eqn:Hadd; simpl bind; try discriminate.
    apply add_months_shift in Hadd. subst cur. intros Hrun.
    destruct (note_payments_redemption _ _ _ _ _ _ _ Hrun) as (H1 & H2 & H3).
    pose proof (note_payments_dates _ _ _ _ _ _ _ Hrun) as H4.
    split; [exact H1|]. split; [|split; [discriminate|]].
    + intros p Hin Hp. rewrite Forall_forall in H2. apply (H2 p Hin Hp).
    + intros anchor _ Ha. injection Ha as <-. rewrite H3, H4. split.
      * intros (j & Hj & _). exists (S j). rewrite <- candidate_shift.
        split; [lia | symmetry; exact Hj].
      * intros ([|k] & Hk & Hc); [lia|]. exists k. rewrite candidate_shift.
        split; [symmetry; exact Hc | apply date_leb_refl].
  - intros H. injection H as <-. unfold redemptions. simpl.
    split; [lia|]. split; [|split; [reflexivity | discriminate]].
    intros p [<-|[]] _. reflexivity.
Qed.

Lemma redemption_at_most_once_witness :
  new_payments sample_ids bill_2024 = Ok [bill_payment sample_ids bill_2024]
  /\ redemptions [bill_payment sample_ids bill_2024] = 1%nat.
Proof.
  split; [reflexivity|].
  destruct (redemption_at_most_once sample_ids bill_2024
              [bill_payment sample_ids bill_2024] eq_refl) as (_ & _ & H & _).
  apply H. reflexivity.
Defined.

(** A valid note of two years and a month and a half: four coupons and
    no redemption at all. *)
Lemma note_without_redemption :
  InvestmentCreate.preconditions (note_request (Some jan15_2024) jan15_2024 mar01_2026)
  = true
  /\ exists evs,
      new_payments sample_ids note_odd_term = Ok evs
      /\ map (fun p => (PaymentSchedule.payment_date p, PaymentSchedule.payment_type p)) evs
         = [ (Date.mk 2024 7 15, COUPON); (Date.mk 2025 1 15, COUPON);
             (Date.mk 2025 7 15, COUPON); (Date.mk 2026 1 15, COUPON) ]
      /\ redemptions evs = 0%nat.
Proof.
  split; [vm_compute; reflexivity|].
  eexists. split; [vm_compute; reflexivity|].
  split; reflexivity.
Qed.

(** ** A note without issue date *)

Lemma new_payments_unissued (uuid4 : nat -> string) (inv : Investment.t) :
  Investment.investment_type inv = TREASURY_NOTE ->
  Investment.issue_date inv = None ->
  new_payments uuid4 inv = Raise no_date_plus_relativedelta.
Proof.
  intros Htype Hissue. unfold new_payments.
  rewrite Htype, div_by_2, Hissue. reflexivity.
Qed.

(** C4.  A valid request for a note without issue date: generation
    raises [TypeError] at [current_date + relativedelta(months=6)], and
    the purchase date is not used; with the issue date set to the
    purchase date the same note has its four payments. *)
Theorem unissued_note_raises :
  InvestmentCreate.preconditions (note_request None jan15_2024 jan15_2026) = true
  /\ new_payments sample_ids note_unissued = Raise no_date_plus_relativedelta
  /\ generate_payment_schedule sample_ids note_unissued (Db.mk [note_unissued] [])
     = Raise no_date_plus_relativedelta
  /\ exists evs,
      new_payments sample_ids (note_of (Some jan15_2024) jan15_2024 jan15_2026) = Ok evs
      /\ List.length evs = 4%nat.
Proof.
  split; [vm_compute; reflexivity|].
  split; [reflexivity|]. split; [reflexivity|].
  eexists. split; [vm_compute; reflexivity | reflexivity].
Qed.

(** ** Regeneration *)

(** The identifiers drawn do not influence anything else. *)
Lemma note_payments_anonymous (g g' : nat -> string) (inv : Investment.t)
  (coupon_amount : Q) (fuel : nat) :
  forall current_date payment_count,
    outcome_map (map anonymous)
      (note_payments g inv fuel coupon_amount current_date payment_count)
    = outcome_map (map anonymous)
        (note_payments g' inv fuel coupon_amount current_date payment_count).
Proof.
  induction fuel as [|fuel IH]; intros cur cnt; simpl note_payments.
  - reflexivity.
  - destruct (cur <=d _); [|reflexivity].
    destruct (Date.add_months 6 cur) as [next| |]; simpl bind; try reflexivity.
    specialize (IH next (S cnt)).
    destruct (note_payments g inv fuel coupon_amount next (S cnt));
      destruct (note_payments g' inv fuel coupon_amount next (S cnt));
      simpl in *; try discriminate; try reflexivity; try congruence.
    injection IH as IH. rewrite IH. f_equal. f_equal.
    destruct (cur =d _); reflexivity.
Qed.

Lemma new_payments_anonymous (g g' : nat -> string) (inv : Investment.t) :
  outcome_map (map anonymous) (new_payments g inv)
  = outcome_map (map anonymous) (new_payments g' inv).
Proof.
  unfold new_payments. destruct (Investment.investment_type inv); [|reflexivity].
  rewrite div_by_2. simpl bind.
  destruct (plus_relativedelta _ 6); simpl bind; try reflexivity.
  apply note_payments_anonymous.
Qed.

Lemma note_payments_owner (g : nat -> string) (inv : Investment.t)
  (coupon_amount : Q) (fuel : nat) :
  forall current_date payment_count evs,
    note_payments g inv fuel coupon_amount current_date payment_count = Ok evs ->
    Forall (fun p => of_investment inv p = true) evs.
Proof.
  induction fuel as [|fuel IH]; intros cur cnt evs; simpl note_payments.
  - destruct (cur <=d _); [discriminate|]. intros H. injection H as <-. constructor.
  - destruct (cur <=d _); [|intros H; injection H as <-; constructor].
    destruct (Date.add_months 6 cur) as [next| |]; simpl bind; try discriminate.
    destruct (note_payments g inv fuel coupon_amount next (S cnt)) as [rest| |] eqn:Hrest;
      simpl bind; try discriminate.
    intros H. injection H as <-. constructor; [|eapply IH; exact Hrest].
    unfold of_investment. destruct (cur =d _); apply String.eqb_refl.
Qed.

Lemma new_payments_owner (g : nat -> string) (inv : Investment.t) evs :
  new_payments g inv = Ok evs -> Forall (fun p => of_investment inv p = true) evs.
Proof.
  unfold new_payments. destruct (Investment.investment_type inv).
  - rewrite div_by_2. simpl bind.
    destruct (plus_relativedelta _ 6); simpl bind; try discriminate.
    apply note_payments_owner.
  - intros H. injection H as <-. constructor; [|constructor].
    apply String.eqb_refl.
Qed.

(** The dates of a generated schedule are pairwise distinct. *)
Lemma note_payments_nodup (g : nat -> string) (inv : Investment.t)
  (coupon_amount : Q) (fuel : nat) :
  forall current_date payment_count evs,
    note_payments g inv fuel coupon_amount current_date payment_count = Ok evs ->
    NoDup (map PaymentSchedule.payment_date evs).
Proof.
  induction fuel as [|fuel IH]; intros cur cnt evs; simpl note_payments.
  - destruct (cur <=d _); [discriminate|]. intros H. injection H as <-. constructor.
  - destruct (cur <=d _); [|intros H; injection H as <-; constructor].
    destruct (Date.add_months 6 cur) as [next| |] eqn:Hadd; simpl bind; try discriminate.
    apply add_months_shift in Hadd. subst next.
    destruct (note_payments g inv fuel coupon_amount _ (S cnt)) as [rest| |] eqn:Hrest;
      simpl bind; try discriminate.
    intros H. injection H as <-. simpl map.
    assert (Hd : forall c : bool, PaymentSchedule.payment_date
                   (if c then final_payment g inv coupon_amount cur cnt
                    else coupon_payment g inv coupon_amount cur cnt (S cnt)) = cur)
      by (intros []; reflexivity).
    rewrite Hd. constructor; [|eapply IH; exact Hrest].
    intros Hin. apply (note_payments_dates _ _ _ _ _ _ _ Hrest) in Hin.
    destruct Hin as (j & Hj & _). rewrite candidate_shift in Hj.
    pose proof (candidate_increasing cur 0 (S j) ltac:(lia)) as Hinc.
    rewrite <- Hj in Hinc. simpl in Hinc. rewrite date_ltb_irrefl in Hinc.
    discriminate.
Qed.

Lemma new_payments_nodup (g : nat -> string) (inv : Investment.t) evs :
  new_payments g inv = Ok evs -> NoDup (map PaymentSchedule.payment_date evs).
Proof.
  unfold new_payments. destruct (Investment.investment_type inv).
  - rewrite div_by_2. simpl bind.
    destruct (plus_relativedelta _ 6); simpl bind; try discriminate.
    apply note_payments_nodup.
  - intros H. injection H as <-. repeat constructor. intros [].
Qed.

Lemma filter_negb_app {A : Type} (f : A -> bool) (l l' : list A) :
  Forall (fun x => f x = true) l' ->
  filter (fun x => negb (f x)) (filter (fun x => negb (f x)) l ++ l')
  = filter (fun x => negb (f x)) l.
Proof.
  intros H. rewrite filter_app.
  assert (E : filter (fun x => negb (f x)) l' = []).
  { induction H as [|x l' Hx _ IH]; [reflexivity|]. simpl. rewrite Hx. exact IH. }
  rewrite E, app_nil_r.
  induction l as [|x l IH]; [reflexivity|]. simpl.
  destruct (f x) eqn:Hx; simpl; [exact IH|]. rewrite Hx. simpl. f_equal. exact IH.
Qed.

Lemma new_payments_no_timeout (g : nat -> string) (inv : Investment.t) :
  Date.valid (Investment.maturity_date inv) = true ->
  (forall a, Investment.issue_date inv = Some a -> Date.valid a = true) ->
  new_payments g inv <> Timeout.
Proof.
  intros Hmat Hissue. unfold new_payments.
  destruct (Investment.investment_type inv); [|discriminate].
  rewrite div_by_2. simpl bind.
  destruct (Investment.issue_date inv) as [a|]; [|discriminate].
  specialize (Hissue a eq_refl). unfold plus_relativedelta.
  destruct (Date.add_months 6 a) as [cur| |] eqn:Hadd; simpl bind.
  - apply add_months_shift in Hadd. subst cur.
    apply note_payments_no_timeout.
    + apply shift_months_index; [lia | apply valid_month_ok; exact Hissue].
    + apply valid_month_ok. exact Hmat.
    + apply le_n.
  - discriminate.
  - unfold Date.add_months in Hadd. destruct (_ && _); discriminate.
Qed.

(** C5.  Generation run twice for one investment: when the first call
    succeeds so does the second, and afterwards the persisted schedule of
    the investment is exactly the list of rows of the second call, whose
    dates are pairwise distinct and which are those of the first call up
    to the fresh identifiers; the rows of the other investments and the
    investments themselves are as before the first call.  When the first
    call raises, so does the second, and neither commits anything.  On
    valid dates a call does one or the other. *)
Theorem regeneration_idempotent (uuid4 uuid4' : nat -> string)
  (inv : Investment.t) (db : Db.t) :
  (forall db1,
      generate_payment_schedule uuid4 inv db = Ok db1 ->
      exists evs1 evs2 db2,
        new_payments uuid4 inv = Ok evs1
        /\ new_payments uuid4' inv = Ok evs2
        /\ generate_payment_schedule uuid4' inv db1 = Ok db2
        /\ schedule_of inv db2 = evs2
        /\ NoDup (map PaymentSchedule.payment_date evs2)
        /\ map anonymous evs2 = map anonymous evs1
        /\ filter (fun p => negb (of_investment inv p)) (Db.payment_schedules db2)
           = filter (fun p => negb (of_investment inv p)) (Db.payment_schedules db)
        /\ Db.investments db2 = Db.investments db)
  /\ (forall e,
         generate_payment_schedule uuid4 inv db = Raise e ->
         generate_payment_schedule uuid4' inv db = Raise e)
  /\ (Date.valid (Investment.maturity_date inv) = true ->
      (forall a, Investment.issue_date inv = Some a -> Date.valid a = true) ->
      generate_payment_schedule uuid4 inv db <> Timeout).
Proof.
  pose proof (new_payments_anonymous uuid4 uuid4' inv) as Hanon.
  pose proof (new_payments_no_timeout uuid4 inv) as Hterm.
  unfold generate_payment_schedule. split; [|split].
  - intros db1.
    destruct (new_payments uuid4 inv) as [evs1| |] eqn:H1; simpl bind; try discriminate.
    destruct (new_payments uuid4' inv) as [evs2| |] eqn:H2; simpl in Hanon;
      try discriminate.
    intros Hdb1. injection Hdb1 as <-. injection Hanon as Hanon.
    pose proof (new_payments_owner _ _ _ H1) as Ho1.
    pose proof (new_payments_owner _ _ _ H2) as Ho2.
    exists evs1, evs2. eexists. simpl bind.
    split; [reflexivity|]. split; [reflexivity|]. split; [reflexivity|].
    cbn [Db.payment_schedules Db.investments].
    fold (of_investment inv).
    change (fun p => negb (String.eqb (PaymentSchedule.investment_id p) (Investment.id inv)))
      with (fun p => negb (of_investment inv p)).
    rewrite (filter_negb_app (of_investment inv)) by exact Ho1.
    split; [apply (filter_app_split (of_investment inv)); exact Ho2|].
    split; [eapply new_payments_nodup; exact H2|].
    split; [symmetry; exact Hanon|].
    split; [apply (filter_negb_app (of_investment inv)); exact Ho2 | reflexivity].
  - intros e.
    destruct (new_payments uuid4 inv) as [evs1| |] eqn:H1; simpl bind; try discriminate.
    destruct (new_payments uuid4' inv) as [evs2| |] eqn:H2; simpl in Hanon;
      try discriminate.
    injection Hanon as <-. intros H. exact H.
  - intros Hmat Hissue. specialize (Hterm Hmat Hissue).
    destruct (new_payments uuid4 inv); simpl;
      [discriminate | discriminate | contradiction].
Qed.

Lemma regeneration_idempotent_witness :
  exists db1 db2,
    generate_payment_schedule sample_ids note_2024 (Db.mk [note_2024] []) = Ok db1
    /\ generate_payment_schedule other_ids note_2024 db1 = Ok db2
    /\ new_payments other_ids note_2024 = Ok (schedule_of note_2024 db2).
Proof.
  destruct (generate_payment_schedule sample_ids note_2024 (Db.mk [note_2024] []))
    as [db1| |] eqn:H1; try (vm_compute in H1; discriminate).
  destruct (proj1 (regeneration_idempotent sample_ids other_ids note_2024
                     (Db.mk [note_2024] [])) db1 H1)
    as (evs1 & evs2 & db2 & _ & H2 & H3 & H4 & _).
  exists db1, db2. split; [reflexivity|]. split; [exact H3|].
  rewrite H4. exact H2.
Defined.

(** ** Failure of the generation during a creation *)

(** A creation whose generation raises: the investment is in the store
    all the same. *)
Lemma failed_creation_leaves_investment :
  InvestmentCreate.preconditions (note_request None jan15_2024 jan15_2026) = true
  /\ create_investment sample_ids (note_request None jan15_2024 jan15_2026) user_1
       (Db.mk [] [])
     = (Db.mk [new_investment (sample_ids 0%nat) user_1
                 (note_request None jan15_2024 jan15_2026)] [],
        Raise no_date_plus_relativedelta).
Proof. split; vm_compute; reflexivity. Qed.

(** C6 (as amended).  When the generation fails during a creation, no
    payment is written and the payments in the store are as before, but
    the investment, committed before the generation, stays in the
    store. *)
Theorem failed_creation_state (uuid4 : nat -> string)
  (investment_data : InvestmentCreate.t) (current_user : User.t) (db : Db.t)
  (e : exn) :
  snd (create_investment uuid4 investment_data current_user db) = Raise e ->
  fst (create_investment uuid4 investment_data current_user db)
  = Db.mk (Db.investments db ++ [new_investment (uuid4 O) current_user investment_data])
          (Db.payment_schedules db).
Proof.
  unfold create_investment.
  destruct (generate_payment_schedule _ _ _); simpl; [discriminate| |discriminate].
  intros _. reflexivity.
Qed.

Lemma failed_creation_state_witness :
  snd (create_investment sample_ids (note_request None jan15_2024 jan15_2026) user_1
         (Db.mk [bill_2024] [bill_payment other_ids bill_2024]))
  = Raise no_date_plus_relativedelta
  /\ fst (create_investment sample_ids (note_request None jan15_2024 jan15_2026) user_1
            (Db.mk [bill_2024] [bill_payment other_ids bill_2024]))
     = Db.mk [bill_2024;
              new_investment (sample_ids 0%nat) user_1
                (note_request None jan15_2024 jan15_2026)]
             [bill_payment other_ids bill_2024].
Proof.
  split; [reflexivity|].
  apply (failed_creation_state sample_ids (note_request None jan15_2024 jan15_2026)
           user_1 (Db.mk [bill_2024] [bill_payment other_ids bill_2024])
           no_date_plus_relativedelta).
  reflexivity.
Defined.

(** ** Sums of decimals *)

Lemma fold_left_Qplus (l : list Q) (a : Q) :
  (fold_left Qplus l a == a + Decimal.sum l)%Q.
Proof.
  unfold Decimal.sum. revert a.
  induction l as [|x l IH]; intros a; simpl.
  - ring.
  - rewrite (IH (a + x)%Q), (IH (0 + x)%Q). ring.
Qed.

Lemma sum_cons (x : Q) (l : list Q) : (Decimal.sum (x :: l) == x + Decimal.sum l)%Q.
Proof.
  unfold Decimal.sum at 1. simpl. rewrite fold_left_Qplus. ring.
Qed.

Lemma sum_nil : Decimal.sum [] = 0%Q.
Proof. reflexivity. Qed.

(** The accumulation [total += f(x)] over a list. *)
Lemma fold_left_accumulate {A : Type} (f : A -> Q) (l : list A) (a : Q) :
  (fold_left (fun acc x => acc + f x) l a == a + Decimal.sum (map f l))%Q.
Proof.
  revert a. induction l as [|x l IH]; intros a; simpl.
  - rewrite sum_nil. ring.
  - rewrite IH, sum_cons. ring.
Qed.

Lemma sum_filter_disjoint {A : Type} (a : A -> Q) (f g : A -> bool) (l : list A) :
  (forall x, f x = true -> g x = true -> False) ->
  (Decimal.sum (map a (filter (fun x => f x || g x) l))
   == Decimal.sum (map a (filter f l)) + Decimal.sum (map a (filter g l)))%Q.
Proof.
  intros Hd. induction l as [|x l IH]; simpl.
  - rewrite sum_nil. ring.
  - destruct (f x) eqn:Hf, (g x) eqn:Hg; simpl.
    + destruct (Hd x Hf Hg).
    + rewrite !sum_cons, IH. ring.
    + rewrite !sum_cons, IH. ring.
    + exact IH.
Qed.

Lemma filter_ext_eq {A : Type} (f g : A -> bool) (l : list A) :
  (forall x, f x = g x) -> filter f l = filter g l.
Proof. intros H. apply filter_ext. exact H. Qed.

Lemma existsb_filter {A : Type} (f g : A -> bool) (l : list A) :
  existsb f (filter g l) = existsb (fun x => g x && f x) l.
Proof.
  induction l as [|x l IH]; [reflexivity|]. simpl.
  destruct (g x); simpl; rewrite IH; reflexivity.
Qed.

(** ** The portfolio summary *)

(** The value of the summary. *)
Lemma summary_value (current_user : User.t) (db : Db.t) :
  let investments := active_investments_of current_user db in
  let total_purchase_price := Decimal.sum (map Investment.purchase_price investments) in
  let expected_returns :=
    fold_left
      (fun acc investment =>
         acc + Decimal.sum (map PaymentSchedule.payment_amount
                                (pending_payments_of investment db)))%Q
      investments 0%Q in
  get_portfolio_summary current_user db
  = Ok (PortfolioSummary.mk (List.length investments) (List.length investments)
          (Decimal.sum (map Investment.face_value investments))
          total_purchase_price expected_returns
          (expected_returns - total_purchase_price)
          (if Qltb 0 total_purchase_price
           then Decimal.quo (expected_returns - total_purchase_price)
                            total_purchase_price * 100
           else 0)%Q).
Proof.
  intros investments tpp er. unfold get_portfolio_summary.
  fold investments. fold tpp. fold er.
  destruct (Qltb 0 tpp) eqn:Hlt; [|reflexivity].
  unfold Decimal.div.
  assert (E : Qeq_bool tpp 0 = false).
  { destruct (Qeq_bool tpp 0) eqn:Heq; [|reflexivity].
    apply Qeq_bool_eq in Heq. unfold Qltb in Hlt.
    assert (Hle : Qle_bool tpp 0 = true) by (apply Qle_bool_iff; rewrite Heq; apply Qle_refl).
    rewrite Hle in Hlt. discriminate. }
  rewrite E. reflexivity.
Qed.

Lemma expected_returns_flat (current_user : User.t) (db : Db.t)
  (invs : list Investment.t) :
  NoDup (map Investment.id invs) ->
  (Decimal.sum
     (map (fun i => Decimal.sum (map PaymentSchedule.payment_amount
                                     (pending_payments_of i db))) invs)
   == Decimal.sum
        (map PaymentSchedule.payment_amount
             (filter (fun p => pending_or_due p
                               && existsb (fun i => String.eqb (PaymentSchedule.investment_id p)
                                                               (Investment.id i)) invs)
                     (Db.payment_schedules db))))%Q.
Proof.
  induction invs as [|i invs IH]; intros Hnd.
  - simpl. rewrite sum_nil.
    assert (E : filter (fun p => pending_or_due p && false) (Db.payment_schedules db) = []).
    { induction (Db.payment_schedules db) as [|p l IHl]; [reflexivity|].
      simpl. rewrite andb_false_r. exact IHl. }
    rewrite E. reflexivity.
  - inversion Hnd as [|? ? Hnotin Hnd']; subst.
    simpl map. rewrite sum_cons, (IH Hnd').
    set (f := fun p => String.eqb (PaymentSchedule.investment_id p) (Investment.id i)
                       && pending_or_due p).
    set (g := fun p => pending_or_due p
                       && existsb (fun i' => String.eqb (PaymentSchedule.investment_id p)
                                                        (Investment.id i')) invs).
    assert (E : filter (fun p => pending_or_due p
                                 && existsb (fun i' => String.eqb (PaymentSchedule.investment_id p)
                                                                  (Investment.id i'))
                                            (i :: invs))
                       (Db.payment_schedules db)
                = filter (fun p => f p || g p) (Db.payment_schedules db)).
    { apply filter_ext. intros p. unfold f, g. simpl.
      destruct (pending_or_due p); simpl; [|rewrite andb_false_r; reflexivity].
      rewrite andb_true_r. reflexivity. }
    cbn [existsb] in E |- *. rewrite E. unfold pending_payments_of. fold f.
    rewrite (sum_filter_disjoint PaymentSchedule.payment_amount f g).
    + reflexivity.
    + intros p Hp Hq. unfold f, g in Hp, Hq.
      apply andb_prop in Hp. destruct Hp as [Hp _].
      apply andb_prop in Hq. destruct Hq as [_ Hq].
      apply String.eqb_eq in Hp. apply existsb_exists in Hq.
      destruct Hq as (i' & Hin & Heq). apply String.eqb_eq in Heq.
      apply Hnotin. rewrite <- Hp, Heq. apply in_map. exact Hin.
Qed.

Lemma NoDup_map_filter {A B : Type} (f : A -> B) (g : A -> bool) (l : list A) :
  NoDup (map f l) -> NoDup (map f (filter g l)).
Proof.
  induction l as [|x l IH]; simpl; intros H; [constructor|].
  inversion H as [|? ? Hnotin Hnd]; subst.
  destruct (g x); simpl; [|apply IH; exact Hnd].
  constructor; [|apply IH; exact Hnd].
  intros Hin. apply Hnotin. apply in_map_iff in Hin.
  destruct Hin as (y & Hy & Hin). apply filter_In in Hin.
  rewrite <- Hy. apply in_map. apply Hin.
Qed.

(** C7.  The identifiers of the investments being distinct, the expected
    returns of the summary are the sum of the amounts of the payments
    that are pending or due and belong to an active investment of the
    user; a payment that is paid or overdue is not among them. *)
Theorem expected_returns_sum (current_user : User.t) (db : Db.t) :
  NoDup (map Investment.id (Db.investments db)) ->
  exists s,
    get_portfolio_summary current_user db = Ok s
    /\ (PortfolioSummary.expected_returns s
        == Decimal.sum (map PaymentSchedule.payment_amount
                            (filter (counted current_user db) (Db.payment_schedules db))))%Q
    /\ (forall p, PaymentSchedule.payment_status p = Some PAID
                  \/ PaymentSchedule.payment_status p = Some OVERDUE ->
                  counted current_user db p = false).
Proof.
  intros Hnd. eexists. split; [apply summary_value|].
  cbn [PortfolioSummary.expected_returns]. split.
  - rewrite fold_left_accumulate, Qplus_0_l.
    rewrite (expected_returns_flat current_user db
               (active_investments_of current_user db)
               (NoDup_map_filter _ _ _ Hnd)).
    erewrite filter_ext; [reflexivity|].
    intros p. unfold counted, active_investments_of. rewrite existsb_filter.
    reflexivity.
  - intros p [H|H]; unfold counted, pending_or_due; rewrite H; reflexivity.
Qed.

Lemma expected_returns_sum_witness :
  NoDup (map Investment.id (Db.investments db_paid_pending))
  /\ exists s,
      get_portfolio_summary user_1 db_paid_pending = Ok s
      /\ (PortfolioSummary.expected_returns s == 2000)%Q.
Proof.
  assert (Hnd : NoDup (map Investment.id (Db.investments db_paid_pending))).
  { simpl. constructor; [intros [] | constructor]. }
  split; [exact Hnd|].
  destruct (expected_returns_sum user_1 db_paid_pending Hnd) as (s & Hs & Hsum & _).
  exists s. split; [exact Hs|]. rewrite Hsum. reflexivity.
Defined.




(** ** Update of an investment *)

Lemma same_terms_refl (a : Investment.t) : same_terms a a.
Proof. repeat split. Qed.

Lemma apply_update_terms (u : InvestmentUpdate.t) (a : Investment.t) :
  same_terms a (apply_update u a).
Proof.
  unfold apply_update.
  destruct (InvestmentUpdate.description u), (InvestmentUpdate.status u);
    repeat split.
Qed.

Lemma NoDup_map_inj {A B : Type} (f : A -> B) (l : list A) (x y : A) :
  NoDup (map f l) -> In x l -> In y l -> f x = f y -> x = y.
Proof.
  induction l as [|z l IH]; simpl; intros Hnd Hx Hy Hf; [contradiction|].
  inversion Hnd as [|? ? Hnotin Hnd']; subst.
  destruct Hx as [->|Hx], Hy as [->|Hy].
  - reflexivity.
  - exfalso. apply Hnotin. rewrite Hf. apply in_map. exact Hy.
  - exfalso. apply Hnotin. rewrite <- Hf. apply in_map. exact Hx.
  - apply IH; assumption.
Qed.

Lemma Forall2_map_self {A : Type} (R : A -> A -> Prop) (f : A -> A) (l : list A) :
  (forall x, In x l -> R x (f x)) -> Forall2 R l (map f l).
Proof.
  induction l as [|x l IH]; simpl; intros H; constructor.
  - apply H. left. reflexivity.
  - apply IH. intros y Hy. apply H. right. exact Hy.
Qed.

(** C10.  The identifiers of the investments being distinct, an update
    leaves the payments as they are and rewrites the investments row by
    row: every row keeps its terms (type, face value, purchase price,
    coupon rate and the three dates, with its identifier and owner), and
    a row other than the one addressed is unchanged.  The investment
    found is answered with its description and status updated and its
    terms unchanged. *)
Theorem update_frame (investment_id : string) (investment_update : InvestmentUpdate.t)
  (current_user : User.t) (db : Db.t) :
  NoDup (map Investment.id (Db.investments db)) ->
  let db' := fst (update_investment investment_id investment_update current_user db) in
  Db.payment_schedules db' = Db.payment_schedules db
  /\ Forall2 (fun a b => same_terms a b /\ (Investment.id a <> investment_id -> b = a))
             (Db.investments db) (Db.investments db')
  /\ (forall investment,
         find (owned_by investment_id current_user) (Db.investments db) = Some investment ->
         snd (update_investment investment_id investment_update current_user db)
         = Ok (apply_update investment_update investment)
         /\ same_terms investment (apply_update investment_update investment)
         /\ In (apply_update investment_update investment) (Db.investments db')).
Proof.
  intros Hnd. unfold update_investment.
  destruct (find (owned_by investment_id current_user) (Db.investments db))
    as [inv|] eqn:Hfind; cbn [fst snd Db.payment_schedules Db.investments].
  - apply find_some in Hfind. destruct Hfind as [Hin Hown].
    apply andb_prop in Hown. destruct Hown as [Hid _]. apply String.eqb_eq in Hid.
    pose proof (apply_update_terms investment_update inv) as Hterms.
    assert (Hid' : Investment.id (apply_update investment_update inv) = Investment.id inv)
      by (symmetry; apply Hterms).
    split; [reflexivity|]. split.
    + apply Forall2_map_self. intros x Hx. rewrite Hid'.
      destruct (String.eqb (Investment.id x) (Investment.id inv)) eqn:Heq.
      * apply String.eqb_eq in Heq.
        assert (x = inv) as -> by (eapply NoDup_map_inj; eassumption).
        split; [exact Hterms | intros Hne; contradiction].
      * split; [apply same_terms_refl | reflexivity].
    + intros investment H. injection H as <-.
      split; [reflexivity|]. split; [exact Hterms|].
      apply in_map_iff. exists inv. split; [|exact Hin].
      rewrite Hid', String.eqb_refl. reflexivity.
  - split; [reflexivity|]. split; [|discriminate].
    clear Hnd Hfind. induction (Db.investments db) as [|x l IH]; [constructor|].
    constructor; [split; [apply same_terms_refl | reflexivity] | exact IH].
Qed.

Lemma update_frame_witness :
  NoDup (map Investment.id (Db.investments db_note_bill))
  /\ Db.payment_schedules
       (fst (update_investment "inv-1" (InvestmentUpdate.mk None (Some (Some SOLD)))
               user_1 db_note_bill))
     = Db.payment_schedules db_note_bill.
Proof.
  assert (Hnd : NoDup (map Investment.id (Db.investments db_note_bill))).
  { simpl. constructor; [intros [H|[]]; discriminate|].
    constructor; [intros [] | constructor]. }
  split; [exact Hnd|].
  apply (update_frame "inv-1" (InvestmentUpdate.mk None (Some (Some SOLD)))
           user_1 db_note_bill Hnd).
Defined.

(** ** Upcoming payments *)

Lemma insert_by_date_perm x l : Permutation (x :: l) (insert_by_date x l).
Proof.
  induction l as [|y l IH]; simpl; [reflexivity|].
  destruct (_ <=d _); [reflexivity|].
  rewrite perm_swap. apply perm_skip. exact IH.
Qed.

Lemma order_by_payment_date_perm l : Permutation l (order_by_payment_date l).
Proof.
  induction l as [|x l IH]; simpl; [reflexivity|].
  rewrite <- insert_by_date_perm. apply perm_skip. exact IH.
Qed.

Lemma insert_by_date_sorted x l :
  StronglySorted date_le l -> StronglySorted date_le (insert_by_date x l).
Proof.
  induction 1 as [|y l Hl IH Hy]; simpl.
  - constructor; constructor.
  - destruct (_ <=d _) eqn:Hle.
    + constructor; [constructor; assumption|].
      constructor; [exact Hle|].
      eapply Forall_impl; [|exact Hy]. intros z Hz. unfold date_le in *.
      eapply date_leb_trans; eassumption.
    + constructor; [exact IH|].
      apply (Permutation_Forall (insert_by_date_perm x l)).
      constructor; [|exact Hy]. apply date_leb_total. exact Hle.
Qed.

Lemma order_by_payment_date_sorted l : StronglySorted date_le (order_by_payment_date l).
Proof.
  induction l as [|x l IH]; simpl; [constructor|].
  apply insert_by_date_sorted. exact IH.
Qed.

(** With [timedelta] bound, the body answers the rows of the window, in
    ascending date order, [limit] of them at most. *)
Lemma upcoming_payments_with_import (today : Date.t) (current_user : User.t)
  (db : Db.t) (days_ahead limit : Z) (end_date : Date.t) :
  Date.add_days days_ahead today = Ok end_date ->
  exists window,
    upcoming_payments_in globals_with_timedelta today current_user db days_ahead limit
    = Ok (map to_upcoming_payment (firstn (Z.to_nat limit) window))
    /\ Permutation window
         (filter (upcoming current_user today end_date) (join_investment db))
    /\ StronglySorted date_le window.
Proof.
  intros Hend. eexists. unfold upcoming_payments_in.
  change (load_global globals_with_timedelta "date") with (Ok tt).
  change (load_global globals_with_timedelta "timedelta") with (Ok tt).
  simpl bind. rewrite Hend. simpl bind. split; [reflexivity|]. split.
  - symmetry. apply order_by_payment_date_perm.
  - apply order_by_payment_date_sorted.
Qed.

(** The rows at 0, 10 and 100 days and a window of 90 days: once the name
    is bound the first two are answered, the earlier first. *)
Lemma upcoming_window_with_import :
  outcome_map (map UpcomingPayment.id)
    (upcoming_payments_in globals_with_timedelta jan15_2024 user_1
       db_three_pending 90 50)
  = Ok ["p0"; "p10"]%string.
Proof. vm_compute. reflexivity. Qed.

Lemma timedelta_unbound : load_global module_globals "timedelta" = Raise (NameError "timedelta").
Proof. reflexivity. Qed.

(** C8.  Whatever the request, [get_upcoming_payments] raises
    [NameError]: the module imports [datetime] and [date] (line 5) and
    never [timedelta], which line 316 evaluates.  So it does for the rows
    at 0, 10 and 100 days and a window of 90 days. *)
Theorem upcoming_payments_raises :
  (forall (today : Date.t) (current_user : User.t) (db : Db.t) (days_ahead limit : Z),
      get_upcoming_payments today current_user db days_ahead limit
      = Raise (NameError "timedelta"))
  /\ get_upcoming_payments jan15_2024 user_1 db_three_pending 90 50
     = Raise (NameError "timedelta").
Proof.
  assert (H : forall today current_user db days_ahead limit,
             get_upcoming_payments today current_user db days_ahead limit
             = Raise (NameError "timedelta")).
  { intros today current_user db days_ahead limit.
    unfold get_upcoming_payments, upcoming_payments_in.
    change (load_global module_globals "date") with (Ok tt).
    cbv beta iota delta [bind]. rewrite timedelta_unbound. reflexivity. }
  split; [exact H | apply H].
Qed.

(** * Further properties of the code *)

(** ** The generated schedule *)

Lemma note_payments_increasing (g : nat -> string) (inv : Investment.t)
  (coupon_amount : Q) (fuel : nat) :
  forall current_date payment_count evs,
    note_payments g inv fuel coupon_amount current_date payment_count = Ok evs ->
    StronglySorted date_lt evs
    /\ Forall (fun p => (current_date <=d PaymentSchedule.payment_date p) = true) evs.
Proof.
  induction fuel as [|fuel IH]; intros cur cnt evs; simpl note_payments.
  - destruct (cur <=d _); [discriminate|]. intros H. injection H as <-.
    split; constructor.
  - destruct (cur <=d _); [|intros H; injection H as <-; split; constructor].
    destruct (Date.add_months 6 cur) as [next| |] eqn:Hadd; simpl bind; try discriminate.
    apply add_months_shift in Hadd. subst next.
    destruct (note_payments g inv fuel coupon_amount _ (S cnt)) as [rest| |] eqn:Hrest;
      simpl bind; try discriminate.
    intros H. injection H as <-.
    destruct (IH _ _ _ Hrest) as [Hsorted Hafter].
    assert (Hd : forall c : bool, PaymentSchedule.payment_date
                   (if c then final_payment g inv coupon_amount cur cnt
                    else coupon_payment g inv coupon_amount cur cnt (S cnt)) = cur)
      by (intros []; reflexivity).
    split.
    + constructor; [exact Hsorted|].
      eapply Forall_impl; [|exact Hafter]. intros p Hp. unfold date_lt.
      rewrite Hd. rewrite date_ltb_not_leb.
      destruct (PaymentSchedule.payment_date p <=d cur) eqn:Hle; [|reflexivity].
      pose proof (date_leb_trans _ _ _ Hp Hle) as Hcyc.
      pose proof (shift_6_later cur) as Hl. rewrite date_ltb_not_leb, Hcyc in Hl.
      discriminate.
    + constructor; [rewrite Hd; apply date_leb_refl|].
      eapply Forall_impl; [|exact Hafter]. intros p Hp.
      eapply date_leb_trans; [|exact Hp].
      apply date_ltb_leb, shift_6_later.
Qed.

Lemma schedule_increasing_rows (g : nat -> string) (inv : Investment.t)
  (evs : list PaymentSchedule.t) :
  new_payments g inv = Ok evs -> StronglySorted date_lt evs.
Proof.
  unfold new_payments. destruct (Investment.investment_type inv).
  - rewrite div_by_2. simpl bind.
    destruct (plus_relativedelta _ 6); simpl bind; try discriminate.
    intros H. apply (note_payments_increasing _ _ _ _ _ _ _ H).
  - intros H. injection H as <-. repeat constructor.
Qed.

(** The rows of a generated schedule come in strictly increasing date
    order. *)
Theorem schedule_dates_increasing (uuid4 : nat -> string) (inv : Investment.t)
  (evs : list PaymentSchedule.t) :
  new_payments uuid4 inv = Ok evs -> StronglySorted date_lt evs.
Proof. apply schedule_increasing_rows. Qed.

Lemma schedule_dates_increasing_witness :
  new_payments sample_ids note_month_end
  = Ok (map (fun j => payment_at sample_ids note_month_end (coupon_of note_month_end)
                        (candidate aug31_2024 (S j)) j) (seq 0 4))
  /\ StronglySorted date_lt
       (map (fun j => payment_at sample_ids note_month_end (coupon_of note_month_end)
                        (candidate aug31_2024 (S j)) j) (seq 0 4)).
Proof.
  assert (H : new_payments sample_ids note_month_end
              = Ok (map (fun j => payment_at sample_ids note_month_end
                                    (coupon_of note_month_end)
                                    (candidate aug31_2024 (S j)) j) (seq 0 4)))
    by (vm_compute; reflexivity).
  split; [exact H|].
  apply (schedule_dates_increasing sample_ids note_month_end _ H).
Defined.

Section RoundingSign.

Local Open Scope Q_scope.

Lemma round_half_even_floor (x : Q) : (Qfloor x <= Decimal.round_half_even x)%Z.
Proof.
  unfold Decimal.round_half_even.
  destruct (x - inject_Z (Qfloor x) ?= 1 # 2); [destruct (Z.even _)| |]; lia.
Qed.

(** The rounding of the context keeps a positive number positive. *)
Lemma ctx_round_pos (q : Q) : 0 < q -> 0 < Decimal.ctx_round q.
Proof.
  intros Hq. unfold Decimal.ctx_round.
  assert (Hne : ~ q == 0) by (intros E; rewrite E in Hq; discriminate).
  destruct (Qeq_bool q 0) eqn:H0; [apply Qeq_bool_eq in H0; contradiction|].
  pose proof (adjusted_le q Hne) as Hadj.
  set (a := Decimal.adjusted q) in *.
  set (e := (a - (Decimal.prec - 1))%Z).
  assert (Hone : 1 <= Qabs q / Decimal.pow10 e).
  { apply Qle_shift_div_l; [apply pow10_pos|]. rewrite Qmult_1_l.
    eapply Qle_trans; [|exact Hadj].
    apply Qpower_le_compat_l; [unfold e, Decimal.prec; lia | discriminate]. }
  assert (Hc : (1 <= Decimal.round_half_even (Qabs q / Decimal.pow10 e))%Z).
  { eapply Z.le_trans; [|apply round_half_even_floor].
    apply (Qfloor_resp_le 1) in Hone. exact Hone. }
  assert (Hs : Z.sgn (Qnum q) = 1%Z).
  { destruct q as [n d]. unfold Qlt in Hq. simpl in *. lia. }
  rewrite Hs, Z.mul_1_l, Qred_correct.
  apply Qmult_lt_0_compat; [|apply pow10_pos].
  apply inject_Z_pos. lia.
Qed.

End RoundingSign.

(** With a positive face value and, for a note, a positive coupon rate,
    every generated payment has a positive amount. *)
Theorem schedule_amounts_positive (uuid4 : nat -> string) (inv : Investment.t)
  (evs : list PaymentSchedule.t) :
  (0 < Investment.face_value inv)%Q ->
  (Investment.investment_type inv = TREASURY_NOTE ->
   0 < Investment.annual_coupon_rate inv)%Q ->
  new_payments uuid4 inv = Ok evs ->
  Forall (fun p => 0 < PaymentSchedule.payment_amount p)%Q evs.
Proof.
  intros Hfv Hrate. unfold new_payments.
  destruct (Investment.investment_type inv) eqn:Htype.
  - rewrite div_by_2. simpl bind.
    destruct (plus_relativedelta _ 6) as [cur| |]; simpl bind; try discriminate.
    assert (Hc : (0 < Decimal.quo (Investment.face_value inv
                                   * Investment.annual_coupon_rate inv) 2)%Q).
    { apply ctx_round_pos. apply Qlt_shift_div_l; [reflexivity|].
      rewrite Qmult_0_l. apply Qmult_lt_0_compat; [exact Hfv | apply Hrate; reflexivity]. }
    revert Hc. generalize (Decimal.quo (Investment.face_value inv
                                        * Investment.annual_coupon_rate inv) 2).
    intros c Hc. generalize (loop_budget inv cur) as fuel. generalize O as cnt.
    intros cnt fuel. revert cur cnt evs.
    induction fuel as [|fuel IH]; intros cur cnt evs; simpl note_payments.
    + destruct (cur <=d _); [discriminate|]. intros H. injection H as <-. constructor.
    + destruct (cur <=d _); [|intros H; injection H as <-; constructor].
      destruct (Date.add_months 6 cur) as [next| |]; simpl bind; try discriminate.
      destruct (note_payments uuid4 inv fuel c next (S cnt)) as [rest| |] eqn:Hrest;
        simpl bind; try discriminate.
      intros H. injection H as <-. constructor; [|eapply IH; exact Hrest].
      destruct (cur =d _); simpl; [|exact Hc].
      rewrite <- (Qplus_0_l 0). apply Qplus_lt_le_compat; [exact Hc|].
      apply Qlt_le_weak. exact Hfv.
  - intros H. injection H as <-. constructor; [exact Hfv | constructor].
Qed.

Lemma schedule_amounts_positive_witness :
  (0 < Investment.face_value note_2024)%Q
  /\ (0 < Investment.annual_coupon_rate note_2024)%Q
  /\ exists evs,
      new_payments sample_ids note_2024 = Ok evs
      /\ Forall (fun p => 0 < PaymentSchedule.payment_amount p)%Q evs.
Proof.
  split; [reflexivity|]. split; [reflexivity|].
  destruct (new_payments sample_ids note_2024) as [evs| |] eqn:H;
    try (vm_compute in H; discriminate).
  exists evs. split; [reflexivity|].
  apply (schedule_amounts_positive sample_ids note_2024 evs);
    [reflexivity | intros _; reflexivity | exact H].
Defined.

Lemma candidate_index (anchor : Date.t) (k : nat) :
  month_ok anchor ->
  Date.month_index (candidate anchor k) = Date.month_index anchor + 6 * Z.of_nat k.
Proof.
  intros Hm. induction k as [|k IH]; [simpl; lia|].
  rewrite candidate_S.
  destruct (shift_months_index 6 (candidate anchor k)) as [E _];
    [lia | apply candidate_month_ok; exact Hm |].
  rewrite E, IH. lia.
Qed.

(** A note issued on or before its maturity, [m] months before it by the
    calendar, gets [m / 6] payments or one fewer. *)
Theorem schedule_length_bound (uuid4 : nat -> string) (inv : Investment.t)
  (anchor : Date.t) (evs : list PaymentSchedule.t) :
  Investment.investment_type inv = TREASURY_NOTE ->
  Investment.issue_date inv = Some anchor ->
  Date.valid anchor = true ->
  Date.valid (Investment.maturity_date inv) = true ->
  Date.year (Investment.maturity_date inv) < Date.MAXYEAR ->
  (anchor <=d Investment.maturity_date inv) = true ->
  new_payments uuid4 inv = Ok evs ->
  let months := Date.month_index (Investment.maturity_date inv)
                - Date.month_index anchor in
  months / 6 - 1 <= Z.of_nat (List.length evs) <= months / 6.
Proof.
  intros Htype Hissue Hva Hvm Hym Hle Hrun months.
  pose proof (valid_month_ok _ Hva) as Hma.
  pose proof (valid_month_ok _ Hvm) as Hmm.
  pose proof (valid_year _ Hva) as Hyr.
  pose proof (leb_year _ _ Hle) as Hyle.
  destruct (shift_months_index 6 anchor ltac:(lia) Hma) as [_ Hok].
  pose proof (shift_6_year anchor Hma) as Hsy.
  destruct (note_payments_run uuid4 inv (coupon_of inv)
              (loop_budget inv (Date.shift_months 6 anchor))
              (Date.shift_months 6 anchor) O Hok Hmm ltac:(lia) Hym (le_n _))
    as (n & Hn & Hin & Hout).
  assert (Hlen : List.length evs = n).
  { unfold new_payments in Hrun. rewrite Htype, div_by_2, Hissue in Hrun.
    simpl bind in Hrun. unfold plus_relativedelta in Hrun.
    rewrite add_months_6_ok in Hrun by (try assumption; lia).
    simpl bind in Hrun. fold (coupon_of inv) in Hrun. rewrite Hn in Hrun.
    injection Hrun as <-. rewrite length_map, length_seq. reflexivity. }
  rewrite Hlen.
  assert (Hlo : 6 * Z.of_nat n <= months).
  { destruct n as [|n]; [pose proof (leb_month_index _ _ Hma Hmm Hle); unfold months; lia|].
    pose proof (Hin n ltac:(lia)) as Hc. rewrite candidate_shift in Hc.
    apply leb_month_index in Hc;
      [|apply candidate_month_ok; exact Hma | exact Hmm].
    rewrite candidate_index in Hc by exact Hma. unfold months. lia. }
  assert (Hhi : months <= 6 * Z.of_nat n + 6).
  { rewrite candidate_shift in Hout. apply date_ltb_leb in Hout.
    apply leb_month_index in Hout;
      [|exact Hmm | apply candidate_month_ok; exact Hma].
    rewrite candidate_index in Hout by exact Hma. unfold months. lia. }
  split.
  - assert (months / 6 <= Z.of_nat n + 1); [|lia].
    apply Z.div_le_upper_bound; lia.
  - apply Z.div_le_lower_bound; lia.
Qed.

Lemma schedule_length_bound_witness :
  exists evs,
    new_payments sample_ids note_odd_term = Ok evs
    /\ (26 / 6 - 1 <= Z.of_nat (List.length evs) <= 26 / 6).
Proof.
  destruct (new_payments sample_ids note_odd_term) as [evs| |] eqn:H;
    try (vm_compute in H; discriminate).
  exists evs. split; [reflexivity|].
  apply (schedule_length_bound sample_ids note_odd_term jan15_2024 evs);
    try reflexivity. exact H.
Defined.

(** ** Listing the investments *)

Lemma firstn_skipn_In {A : Type} (n m : nat) (l : list A) (x : A) :
  In x (firstn n (skipn m l)) -> In x l.
Proof.
  intros H.
  assert (Hs : In x (skipn m l)).
  { revert H. generalize (skipn m l) as l'. clear l.
    induction n as [|n IH]; intros l' H; [contradiction|].
    destruct l' as [|y l']; [contradiction|].
    destruct H as [H|H]; [left; exact H | right; apply IH; exact H]. }
  clear H. revert l Hs.
  induction m as [|m IH]; intros l H; [exact H|].
  destruct l as [|y l]; [contradiction|]. right. apply IH. exact H.
Qed.

Lemma has_status_eq (s : InvestmentStatus) (i : Investment.t) :
  has_status s i = true <-> Investment.status i = Some s.
Proof.
  unfold has_status. destruct (Investment.status i) as [s'|].
  - destruct s', s; simpl; split; intros H; try discriminate; try reflexivity;
      injection H as H; discriminate.
  - split; discriminate.
Qed.

Lemma InvestmentType_eqb_eq (a b : InvestmentType) :
  InvestmentType_eqb a b = true <-> a = b.
Proof. destruct a, b; simpl; split; intros H; try discriminate; reflexivity. Qed.

Lemma get_investments_query (current_user : User.t) (db : Db.t)
  (status_filter : option InvestmentStatus) (investment_type : option InvestmentType)
  (i : Investment.t) :
  let query :=
    filter (fun i => String.eqb (Investment.user_id i) (User.id current_user))
           (Db.investments db) in
  let query :=
    match status_filter with
    | Some s => filter (has_status s) query
    | None => query
    end in
  let query :=
    match investment_type with
    | Some t => filter (fun i => InvestmentType_eqb (Investment.investment_type i) t) query
    | None => query
    end in
  In i query <-> In i (Db.investments db)
                 /\ listed current_user status_filter investment_type i.
Proof.
  unfold listed. destruct status_filter as [s|], investment_type as [t|]; simpl;
    rewrite ?filter_In, ?has_status_eq, ?InvestmentType_eqb_eq, ?String.eqb_eq;
    split.
  - intros [[[H1 H2] H3] H4]. repeat split; try assumption.
    + intros s' E. injection E as <-. exact H3.
    + intros t' E. injection E as <-. exact H4.
  - intros (H1 & H2 & H3 & H4). repeat split; auto.
  - intros [[H1 H2] H3]. repeat split; try assumption.
    + intros s' E. injection E as <-. exact H3.
    + discriminate.
  - intros (H1 & H2 & H3 & H4). repeat split; auto.
  - intros [[H1 H2] H4]. repeat split; try assumption.
    + discriminate.
    + intros t' E. injection E as <-. exact H4.
  - intros (H1 & H2 & H3 & H4). repeat split; auto.
  - intros [H1 H2]. repeat split; try assumption; discriminate.
  - intros (H1 & H2 & H3 & H4). repeat split; auto.
Qed.

(** [get_investments] lists rows of the store that belong to the user and
    pass the filters given, [limit] of them at most; from the first row
    on and with a limit that the table does not exceed, it lists all of
    them. *)
Theorem get_investments_listed (current_user : User.t) (db : Db.t)
  (status_filter : option InvestmentStatus) (investment_type : option InvestmentType)
  (skip limit : Z) :
  let page := get_investments current_user db status_filter investment_type skip limit in
  (forall i, In i page ->
             In i (Db.investments db)
             /\ listed current_user status_filter investment_type i)
  /\ (List.length page <= Z.to_nat limit)%nat
  /\ (skip <= 0 -> Z.of_nat (List.length (Db.investments db)) <= limit ->
      forall i, In i (Db.investments db) ->
                listed current_user status_filter investment_type i ->
                In i page).
Proof.
  pose proof (get_investments_query current_user db status_filter investment_type) as Hq.
  unfold get_investments. cbv zeta in Hq |- *.
  set (query := match investment_type with
                | Some t => filter _ _
                | None => _
                end) in *.
  split; [|split].
  - intros i Hi. apply Hq. eapply firstn_skipn_In. exact Hi.
  - apply firstn_le_length.
  - intros Hskip Hlimit i Hi Hl.
    assert (Hlen : (List.length query <= List.length (Db.investments db))%nat).
    { unfold query. destruct investment_type, status_filter;
        repeat (etransitivity; [apply filter_length_le|]); reflexivity. }
    replace (Z.to_nat skip) with O by lia. simpl skipn.
    rewrite firstn_all2 by lia. apply Hq. split; assumption.
Qed.

Lemma get_investments_listed_witness :
  0 <= 0 /\ Z.of_nat (List.length (Db.investments db_note_bill)) <= 100
  /\ In bill_2024 (get_investments user_1 db_note_bill (Some ACTIVE)
                     (Some TREASURY_BILL) 0 100).
Proof.
  split; [lia|]. split; [simpl; lia|].
  apply (get_investments_listed user_1 db_note_bill (Some ACTIVE) (Some TREASURY_BILL)
           0 100); [lia | simpl; lia | right; left; reflexivity |].
  repeat split.
  - intros s E. injection E as <-. reflexivity.
  - intros t E. injection E as <-. reflexivity.
Defined.

(** ** One investment and its payments *)

Lemma insert_payment_perm x l : Permutation (x :: l) (insert_payment x l).
Proof.
  induction l as [|y l IH]; simpl; [reflexivity|].
  destruct (_ <=d _); [reflexivity|].
  rewrite perm_swap. apply perm_skip. exact IH.
Qed.

Lemma order_payments_perm l : Permutation l (order_payments l).
Proof.
  induction l as [|x l IH]; simpl; [reflexivity|].
  rewrite <- insert_payment_perm. apply perm_skip. exact IH.
Qed.

Lemma insert_payment_sorted x l :
  StronglySorted date_leq l -> StronglySorted date_leq (insert_payment x l).
Proof.
  induction 1 as [|y l Hl IH Hy]; simpl.
  - constructor; constructor.
  - destruct (_ <=d _) eqn:Hle.
    + constructor; [constructor; assumption|].
      constructor; [exact Hle|].
      eapply Forall_impl; [|exact Hy]. intros z Hz. unfold date_leq in *.
      eapply date_leb_trans; eassumption.
    + constructor; [exact IH|].
      apply (Permutation_Forall (insert_payment_perm x l)).
      constructor; [|exact Hy]. apply date_leb_total. exact Hle.
Qed.

Lemma order_payments_sorted l : StronglySorted date_leq (order_payments l).
Proof.
  induction l as [|x l IH]; simpl; [constructor|].
  apply insert_payment_sorted. exact IH.
Qed.


Lemma find_owned_by (investment_id : string) (current_user : User.t)
  (l : list Investment.t) :
  (forall i, In i l -> Investment.id i = investment_id ->
             Investment.user_id i <> User.id current_user) ->
  find (owned_by investment_id current_user) l = None.
Proof.
  intros H. destruct (find _ l) as [i|] eqn:Hfind; [|reflexivity].
  apply find_some in Hfind. destruct Hfind as [Hin Hown].
  apply andb_prop in Hown. destruct Hown as [Hid Huser].
  apply String.eqb_eq in Hid. apply String.eqb_eq in Huser.
  destruct (H i Hin Hid Huser).
Qed.

Lemma find_owned_by_some (investment_id : string) (current_user : User.t)
  (l : list Investment.t) (i : Investment.t) :
  find (owned_by investment_id current_user) l = Some i ->
  In i l /\ Investment.id i = investment_id
  /\ Investment.user_id i = User.id current_user.
Proof.
  intros Hfind. apply find_some in Hfind. destruct Hfind as [Hin Hown].
  apply andb_prop in Hown. destruct Hown as [Hid Huser].
  apply String.eqb_eq in Hid. apply String.eqb_eq in Huser. auto.
Qed.

(** [get_investment] answers 404 alike when no investment has the
    identifier and when those that have it belong to other users.  What
    it answers otherwise is a row of the store with this identifier and
    this owner, with exactly the payments that refer to the identifier,
    in ascending date order. *)
Theorem get_investment_owned (investment_id : string) (current_user : User.t)
  (db : Db.t) :
  ((forall i, In i (Db.investments db) -> Investment.id i = investment_id ->
              Investment.user_id i <> User.id current_user) ->
   get_investment investment_id current_user db
   = Raise (HTTPException 404 "Investment not found"))
  /\ (forall investment payments,
         get_investment investment_id current_user db = Ok (investment, payments) ->
         In investment (Db.investments db)
         /\ Investment.id investment = investment_id
         /\ Investment.user_id investment = User.id current_user
         /\ Permutation payments (payments_of investment_id db)
         /\ StronglySorted date_leq payments).
Proof.
  unfold get_investment. split.
  - intros H. rewrite (find_owned_by _ _ _ H). reflexivity.
  - intros investment payments.
    destruct (find _ _) as [i|] eqn:Hfind; [|discriminate].
    intros H. injection H as <- <-.
    destruct (find_owned_by_some _ _ _ _ Hfind) as (H1 & H2 & H3).
    repeat split; try assumption.
    + symmetry. apply order_payments_perm.
    + apply order_payments_sorted.
Qed.

Lemma get_investment_owned_witness :
  get_investment "inv-1" user_2 db_note_bill
  = Raise (HTTPException 404 "Investment not found")
  /\ get_investment "inv-9" user_1 db_note_bill
     = Raise (HTTPException 404 "Investment not found").
Proof.
  split.
  - apply (get_investment_owned "inv-1" user_2 db_note_bill).
    intros i [<-|[<-|[]]] _; discriminate.
  - apply (get_investment_owned "inv-9" user_1 db_note_bill).
    intros i [<-|[<-|[]]] H; discriminate.
Defined.




(** ** Deleting an investment *)

Lemma find_none_filter_id (investment_id : string) (current_user : User.t)
  (l : list Investment.t) :
  find (owned_by investment_id current_user)
       (filter (fun i => negb (String.eqb (Investment.id i) investment_id)) l) = None.
Proof.
  apply find_owned_by. intros i Hin Hid.
  apply filter_In in Hin. destruct Hin as [_ Hne].
  rewrite Hid, String.eqb_refl in Hne. discriminate.
Qed.

(** Deleting an investment of the user removes the rows of this
    identifier and the payments that refer to it, and nothing else: no
    payment is left without its investment, the other rows keep their
    place.  Afterwards the identifier is unknown to every user, and a
    second deletion answers 404 and changes nothing. *)
Theorem delete_investment_cascade (investment_id : string) (current_user : User.t)
  (db : Db.t) (investment : Investment.t) :
  find (owned_by investment_id current_user) (Db.investments db) = Some investment ->
  let db' := fst (delete_investment investment_id current_user db) in
  snd (delete_investment investment_id current_user db)
  = Ok "Investment successfully deleted"%string
  /\ Db.investments db'
     = filter (fun i => negb (String.eqb (Investment.id i) investment_id))
              (Db.investments db)
  /\ Db.payment_schedules db'
     = filter (fun p => negb (String.eqb (PaymentSchedule.investment_id p) investment_id))
              (Db.payment_schedules db)
  /\ payments_of investment_id db' = []
  /\ (forall user, get_investment investment_id user db'
                   = Raise (HTTPException 404 "Investment not found"))
  /\ delete_investment investment_id current_user db'
     = (db', Raise (HTTPException 404 "Investment not found")).
Proof.
  intros Hfind. destruct (find_owned_by_some _ _ _ _ Hfind) as (_ & Hid & _).
  unfold delete_investment. rewrite Hfind, Hid. cbn [fst snd Db.investments Db.payment_schedules].
  split; [reflexivity|]. split; [reflexivity|]. split; [reflexivity|].
  split; [|split].
  - unfold payments_of. cbn [Db.payment_schedules].
    induction (Db.payment_schedules db) as [|p l IH]; [reflexivity|].
    simpl. destruct (String.eqb (PaymentSchedule.investment_id p) investment_id) eqn:E;
      simpl; [exact IH|]. rewrite E. exact IH.
  - intros user. unfold get_investment. cbn [Db.investments].
    rewrite find_none_filter_id. reflexivity.
  - rewrite find_none_filter_id. reflexivity.
Qed.

Lemma delete_investment_cascade_witness :
  find (owned_by "inv-2" user_1) (Db.investments db_note_bill) = Some bill_2024
  /\ fst (delete_investment "inv-2" user_1 db_note_bill) = Db.mk [note_2024] [].
Proof.
  split; [reflexivity|].
  destruct (delete_investment_cascade "inv-2" user_1 db_note_bill bill_2024 eq_refl)
    as (_ & H1 & H2 & _).
  destruct (fst (delete_investment "inv-2" user_1 db_note_bill)) as [rows pays].
  simpl in H1, H2. rewrite H1, H2. reflexivity.
Defined.

(** ** Updating a payment *)

Lemma apply_payment_update_terms (u : PaymentScheduleUpdate.t) (p : PaymentSchedule.t) :
  same_payment_terms p (apply_payment_update u p).
Proof.
  unfold apply_payment_update.
  destruct (PaymentScheduleUpdate.payment_status u),
    (PaymentScheduleUpdate.actual_payment_date u),
    (PaymentScheduleUpdate.actual_payment_amount u); repeat split.
Qed.

Lemma find_payment_of_some (payment_id investment_id : string)
  (l : list PaymentSchedule.t) (p : PaymentSchedule.t) :
  find (payment_of payment_id investment_id) l = Some p ->
  In p l /\ PaymentSchedule.id p = payment_id
  /\ PaymentSchedule.investment_id p = investment_id.
Proof.
  intros Hfind. apply find_some in Hfind. destruct Hfind as [Hin Hp].
  apply andb_prop in Hp. destruct Hp as [H1 H2].
  apply String.eqb_eq in H1. apply String.eqb_eq in H2. auto.
Qed.

(** The identifiers of the payments being distinct, [update_payment]
    leaves the investments as they are and rewrites the payments row by
    row: every row keeps its identifier, investment, date, amount, kind
    and description, and a row other than the one addressed is
    unchanged.  A payment that belongs to another investment than the one
    addressed is not found, and then the store is unchanged. *)
Theorem update_payment_frame (investment_id payment_id : string)
  (payment_update : PaymentScheduleUpdate.t) (current_user : User.t) (db : Db.t) :
  NoDup (map PaymentSchedule.id (Db.payment_schedules db)) ->
  let db' := fst (update_payment investment_id payment_id payment_update
                    current_user db) in
  Db.investments db' = Db.investments db
  /\ Forall2 (fun a b => same_payment_terms a b
                         /\ (PaymentSchedule.id a <> payment_id -> b = a))
             (Db.payment_schedules db) (Db.payment_schedules db')
  /\ ((forall p, In p (Db.payment_schedules db) ->
                 PaymentSchedule.id p = payment_id ->
                 PaymentSchedule.investment_id p <> investment_id) ->
      db' = db
      /\ forall p, snd (update_payment investment_id payment_id payment_update
                          current_user db) <> Ok p).
Proof.
  intros Hnd. unfold update_payment.
  assert (Hsame : Forall2 (fun a b => same_payment_terms a b
                                      /\ (PaymentSchedule.id a <> payment_id -> b = a))
                    (Db.payment_schedules db) (Db.payment_schedules db)).
  { clear Hnd. induction (Db.payment_schedules db) as [|x l IH]; constructor;
      [split; [repeat split | reflexivity] | exact IH]. }
  destruct (find (owned_by investment_id current_user) (Db.investments db)) as [inv|];
    cbn [fst snd].
  2:{ split; [reflexivity|]. split; [exact Hsame|]. intros _.
      split; [reflexivity | discriminate]. }
  destruct (find (payment_of payment_id investment_id) (Db.payment_schedules db))
    as [pay|] eqn:Hfind; cbn [fst snd Db.investments Db.payment_schedules].
  2:{ split; [reflexivity|]. split; [exact Hsame|]. intros _.
      split; [reflexivity | discriminate]. }
  destruct (find_payment_of_some _ _ _ _ Hfind) as (Hin & Hid & Hinv).
  pose proof (apply_payment_update_terms payment_update pay) as Hterms.
  assert (Hid' : PaymentSchedule.id (apply_payment_update payment_update pay)
                 = PaymentSchedule.id pay) by (symmetry; apply Hterms).
  split; [reflexivity|]. split.
  - apply Forall2_map_self. intros x Hx. rewrite Hid'.
    destruct (String.eqb (PaymentSchedule.id x) (PaymentSchedule.id pay)) eqn:Heq.
    + apply String.eqb_eq in Heq.
      assert (x = pay) as -> by (eapply NoDup_map_inj; eassumption).
      split; [exact Hterms | intros Hne; contradiction].
    + split; [repeat split | reflexivity].
  - intros Hother. destruct (Hother pay Hin Hid Hinv).
Qed.

Lemma update_payment_frame_witness :
  NoDup (map PaymentSchedule.id (Db.payment_schedules db_paid_pending))
  /\ Db.investments
       (fst (update_payment "inv-1" "p2"
               (PaymentScheduleUpdate.mk (Some (Some PAID)) None None)
               user_1 db_paid_pending))
     = Db.investments db_paid_pending.
Proof.
  assert (Hnd : NoDup (map PaymentSchedule.id (Db.payment_schedules db_paid_pending))).
  { simpl. constructor; [intros [H|[]]; discriminate|].
    constructor; [intros [] | constructor]. }
  split; [exact Hnd|].
  apply (update_payment_frame "inv-1" "p2"
           (PaymentScheduleUpdate.mk (Some (Some PAID)) None None)
           user_1 db_paid_pending Hnd).
Defined.

(** The expected returns as one sum over the payments that count. *)
Lemma expected_returns_counted (current_user : User.t) (db : Db.t) :
  NoDup (map Investment.id (Db.investments db)) ->
  exists s,
    get_portfolio_summary current_user db = Ok s
    /\ (PortfolioSummary.expected_returns s
        == Decimal.sum (map PaymentSchedule.payment_amount
                            (filter (counted current_user db) (Db.payment_schedules db))))%Q.
Proof.
  intros Hnd. eexists. split; [apply summary_value|].
  cbn [PortfolioSummary.expected_returns].
  rewrite fold_left_accumulate, Qplus_0_l.
  rewrite (expected_returns_flat current_user db
             (active_investments_of current_user db)
             (NoDup_map_filter _ _ _ Hnd)).
  erewrite filter_ext; [reflexivity|].
  intros p. unfold counted, active_investments_of. rewrite existsb_filter.
  reflexivity.
Qed.

(** The sum over the rows that pass a test, after one row is replaced by
    another of the same identifier and amount. *)
Lemma sum_replace_row (c : PaymentSchedule.t -> bool) (p p' : PaymentSchedule.t)
  (l : list PaymentSchedule.t) :
  NoDup (map PaymentSchedule.id l) -> In p l ->
  PaymentSchedule.id p' = PaymentSchedule.id p ->
  PaymentSchedule.payment_amount p' = PaymentSchedule.payment_amount p ->
  (Decimal.sum
     (map PaymentSchedule.payment_amount
          (filter c (map (fun x => if String.eqb (PaymentSchedule.id x) (PaymentSchedule.id p')
                                   then p' else x) l)))
   == Decimal.sum (map PaymentSchedule.payment_amount (filter c l))
      - (if c p then PaymentSchedule.payment_amount p else 0)
      + (if c p' then PaymentSchedule.payment_amount p else 0))%Q.
Proof.
  intros Hnd Hin Hid Hamt. rewrite Hid.
  induction l as [|x l IH]; [contradiction|].
  inversion Hnd as [|? ? Hnotin Hnd']; subst.
  destruct Hin as [->|Hin].
  - assert (Hrest : map (fun x => if String.eqb (PaymentSchedule.id x) (PaymentSchedule.id p)
                                  then p' else x) l = l).
    { rewrite <- (map_id l) at 2. apply map_ext_in. intros y Hy.
      destruct (String.eqb (PaymentSchedule.id y) (PaymentSchedule.id p)) eqn:E;
        [|reflexivity].
      apply String.eqb_eq in E. exfalso. apply Hnotin. rewrite <- E.
      apply in_map. exact Hy. }
    cbn [map]. rewrite String.eqb_refl, Hrest. cbn [filter].
    destruct (c p), (c p'); cbn [map]; rewrite ?sum_cons, ?Hamt; ring.
  - assert (Hne : String.eqb (PaymentSchedule.id x) (PaymentSchedule.id p) = false).
    { destruct (String.eqb _ _) eqn:E; [|reflexivity].
      apply String.eqb_eq in E. exfalso. apply Hnotin. rewrite E.
      apply in_map. exact Hin. }
    cbn [map]. rewrite Hne. cbn [filter].
    destruct (c x); cbn [map]; rewrite ?sum_cons, (IH Hnd' Hin); ring.
Qed.

(** The identifiers being distinct, an update of a payment moves the
    expected returns of a summary by the amount of the payment, taken off
    if the payment counted before and added if it counts after; so a
    payment that counted and is marked so that it is no longer pending or
    due lowers them by its amount. *)
Theorem update_payment_expected_returns (investment_id payment_id : string)
  (payment_update : PaymentScheduleUpdate.t) (current_user : User.t) (db : Db.t)
  (investment : Investment.t) (payment : PaymentSchedule.t) :
  NoDup (map Investment.id (Db.investments db)) ->
  NoDup (map PaymentSchedule.id (Db.payment_schedules db)) ->
  find (owned_by investment_id current_user) (Db.investments db) = Some investment ->
  find (payment_of payment_id investment_id) (Db.payment_schedules db) = Some payment ->
  let db' := fst (update_payment investment_id payment_id payment_update
                    current_user db) in
  let payment' := apply_payment_update payment_update payment in
  exists s s',
    get_portfolio_summary current_user db = Ok s
    /\ get_portfolio_summary current_user db' = Ok s'
    /\ (PortfolioSummary.expected_returns s'
        == PortfolioSummary.expected_returns s
           - (if counted current_user db payment
              then PaymentSchedule.payment_amount payment else 0)
           + (if counted current_user db payment'
              then PaymentSchedule.payment_amount payment else 0))%Q
    /\ (counted current_user db payment = true ->
        pending_or_due payment' = false ->
        PortfolioSummary.expected_returns s'
        == PortfolioSummary.expected_returns s
           - PaymentSchedule.payment_amount payment)%Q.
Proof.
  intros Hndi Hndp Hfi Hfp db' payment'.
  destruct (find_payment_of_some _ _ _ _ Hfp) as (Hin & _ & _).
  pose proof (apply_payment_update_terms payment_update payment) as Hterms.
  assert (Hdb' : db' = Db.mk (Db.investments db)
                         (map (fun p => if String.eqb (PaymentSchedule.id p)
                                                      (PaymentSchedule.id payment')
                                        then payment' else p)
                              (Db.payment_schedules db))).
  { unfold db', update_payment. rewrite Hfi, Hfp. reflexivity. }
  destruct (expected_returns_counted current_user db Hndi) as (s & Hs & Hsum).
  destruct (expected_returns_counted current_user db') as (s' & Hs' & Hsum').
  { rewrite Hdb'. exact Hndi. }
  assert (Hformula :
            (PortfolioSummary.expected_returns s'
             == PortfolioSummary.expected_returns s
                - (if counted current_user db payment
                   then PaymentSchedule.payment_amount payment else 0)
                + (if counted current_user db payment'
                   then PaymentSchedule.payment_amount payment else 0))%Q).
  { rewrite Hsum', Hsum, Hdb'. cbn [Db.payment_schedules].
    change (counted current_user (Db.mk (Db.investments db) _))
      with (counted current_user db).
    apply sum_replace_row; [exact Hndp | exact Hin | |].
    - symmetry. apply Hterms.
    - symmetry. apply Hterms. }
  exists s, s'. split; [exact Hs|]. split; [exact Hs'|]. split; [exact Hformula|].
  intros Hc Hp. rewrite Hformula, Hc.
  unfold counted. rewrite Hp. simpl. ring.
Qed.

Lemma update_payment_expected_returns_witness :
  exists s s',
    get_portfolio_summary user_1 db_paid_pending = Ok s
    /\ get_portfolio_summary user_1
         (fst (update_payment "inv-1" "p2"
                 (PaymentScheduleUpdate.mk (Some (Some PAID)) None None)
                 user_1 db_paid_pending)) = Ok s'
    /\ (PortfolioSummary.expected_returns s == 2000)%Q
    /\ (PortfolioSummary.expected_returns s' == 0)%Q.
Proof.
  assert (Hndi : NoDup (map Investment.id (Db.investments db_paid_pending))).
  { simpl. constructor; [intros [] | constructor]. }
  assert (Hndp : NoDup (map PaymentSchedule.id (Db.payment_schedules db_paid_pending))).
  { simpl. constructor; [intros [H|[]]; discriminate|].
    constructor; [intros [] | constructor]. }
  destruct (update_payment_expected_returns "inv-1" "p2"
              (PaymentScheduleUpdate.mk (Some (Some PAID)) None None)
              user_1 db_paid_pending note_2024
              (PaymentSchedule.mk "p2" "inv-1" (Date.mk 2025 1 15) 2000 COUPON
                 (Some PENDING) None None None)
              Hndi Hndp eq_refl eq_refl)
    as (s & s' & Hs & Hs' & _ & Hdrop).
  exists s, s'. split; [exact Hs|]. split; [exact Hs'|].
  assert (E : (PortfolioSummary.expected_returns s == 2000)%Q).
  { rewrite summary_value in Hs. injection Hs as <-. reflexivity. }
  split; [exact E|].
  rewrite Hdrop by reflexivity. rewrite E. reflexivity.
Defined.

(** ** Creating an investment *)










(** ** The full portfolio *)



(** ** Status of an investment and expected returns *)

(** After an update that sets the status of an investment to anything
    but active, no payment of this investment counts in the expected
    returns of any user. *)
Theorem inactive_investment_not_counted (investment_id : string)
  (investment_update : InvestmentUpdate.t) (current_user viewer : User.t) (db : Db.t)
  (investment : Investment.t) (value : option InvestmentStatus) :
  find (owned_by investment_id current_user) (Db.investments db) = Some investment ->
  InvestmentUpdate.status investment_update = Some value ->
  value <> Some ACTIVE ->
  let db' := fst (update_investment investment_id investment_update current_user db) in
  forall p, PaymentSchedule.investment_id p = investment_id ->
            counted viewer db' p = false.
Proof.
  intros Hfind Hstatus Hvalue db' p Hp.
  destruct (find_owned_by_some _ _ _ _ Hfind) as (_ & Hid & _).
  unfold db', update_investment. rewrite Hfind. cbn [fst].
  unfold counted. cbn [Db.investments].
  destruct (pending_or_due p); [|reflexivity]. cbn [andb].
  set (updated := apply_update investment_update investment).
  assert (Hid' : Investment.id updated = investment_id).
  { rewrite <- Hid. symmetry. apply (apply_update_terms investment_update investment). }
  assert (Hst : Investment.status updated = value).
  { unfold updated, apply_update. rewrite Hstatus.
    destruct (InvestmentUpdate.description investment_update); reflexivity. }
  assert (Hinactive : active_of viewer updated = false).
  { unfold active_of. rewrite Hst. destruct value as [[]|];
      try apply andb_false_r. destruct (Hvalue eq_refl). }
  clear Hfind. induction (Db.investments db) as [|i l IH]; [reflexivity|].
  cbn [map existsb]. rewrite IH, orb_false_r, Hid'.
  destruct (String.eqb (Investment.id i) investment_id) eqn:E.
  - rewrite Hinactive. reflexivity.
  - rewrite Hp, String.eqb_sym, E. apply andb_false_r.
Qed.

Lemma inactive_investment_not_counted_witness :
  find (owned_by "inv-1" user_1) (Db.investments db_paid_pending) = Some note_2024
  /\ forall p, PaymentSchedule.investment_id p = "inv-1"%string ->
               counted user_1
                 (fst (update_investment "inv-1"
                         (InvestmentUpdate.mk None (Some (Some SOLD)))
                         user_1 db_paid_pending)) p = false.
Proof.
  split; [reflexivity|].
  apply (inactive_investment_not_counted "inv-1"
           (InvestmentUpdate.mk None (Some (Some SOLD))) user_1 user_1
           db_paid_pending note_2024 (Some SOLD)); [reflexivity | reflexivity |].
  discriminate.
Defined.

(** ** Reading back an update *)

Lemma find_map_updated (investment_id : string) (current_user : User.t)
  (updated : Investment.t) (l : list Investment.t) (found : Investment.t) :
  find (owned_by investment_id current_user) l = Some found ->
  owned_by investment_id current_user updated = true ->
  Investment.id updated = investment_id ->
  find (owned_by investment_id current_user)
       (map (fun i => if String.eqb (Investment.id i) (Investment.id updated)
                      then updated else i) l)
  = Some updated.
Proof.
  intros Hfind Hown Hid. rewrite Hid.
  induction l as [|i l IH]; [discriminate|].
  cbn [map find] in *.
  destruct (String.eqb (Investment.id i) investment_id) eqn:E.
  - rewrite Hown. reflexivity.
  - assert (Hi : owned_by investment_id current_user i = false)
      by (unfold owned_by; rewrite E; reflexivity).
    rewrite Hi in *. apply IH. exact Hfind.
Qed.

(** After an update of an investment of the user, [get_investment]
    answers the investment with the description and the status of the
    update, and the payments it answered before. *)
Theorem update_then_get (investment_id : string)
  (investment_update : InvestmentUpdate.t) (current_user : User.t) (db : Db.t)
  (investment : Investment.t) (payments : list PaymentSchedule.t) :
  get_investment investment_id current_user db = Ok (investment, payments) ->
  let db' := fst (update_investment investment_id investment_update current_user db) in
  get_investment investment_id current_user db'
  = Ok (apply_update investment_update investment, payments).
Proof.
  unfold get_investment, update_investment.
  destruct (find (owned_by investment_id current_user) (Db.investments db))
    as [found|] eqn:Hfind; [|discriminate].
  intros H. injection H as <- <-. cbn [fst Db.investments].
  destruct (find_owned_by_some _ _ _ _ Hfind) as (_ & Hid & Huser).
  pose proof (apply_update_terms investment_update found) as Hterms.
  destruct Hterms as (Hid' & Huser' & _).
  rewrite (find_map_updated investment_id current_user _ _ found Hfind).
  - reflexivity.
  - unfold owned_by. rewrite <- Hid', <- Huser', Hid, Huser, !String.eqb_refl.
    reflexivity.
  - rewrite <- Hid'. exact Hid.
Qed.

Lemma update_then_get_witness :
  exists investment payments,
    get_investment "inv-1" user_1 db_paid_pending = Ok (investment, payments)
    /\ get_investment "inv-1" user_1
         (fst (update_investment "inv-1" (InvestmentUpdate.mk (Some None) (Some (Some SOLD)))
                 user_1 db_paid_pending))
       = Ok (apply_update (InvestmentUpdate.mk (Some None) (Some (Some SOLD))) investment,
             payments).
Proof.
  destruct (get_investment "inv-1" user_1 db_paid_pending) as [[investment payments]| |]
    eqn:H; try (vm_compute in H; discriminate).
  exists investment, payments. split; [reflexivity|].
  apply (update_then_get "inv-1" (InvestmentUpdate.mk (Some None) (Some (Some SOLD)))
           user_1 db_paid_pending investment payments H).
Defined.

(** ** The cash of a note *)

Lemma note_payments_total (g : nat -> string) (inv : Investment.t)
  (coupon_amount : Q) (fuel : nat) :
  forall current_date payment_count evs,
    note_payments g inv fuel coupon_amount current_date payment_count = Ok evs ->
    (Decimal.sum (map PaymentSchedule.payment_amount evs)
     == inject_Z (Z.of_nat (List.length evs)) * coupon_amount
        + inject_Z (Z.of_nat (redemptions evs)) * Investment.face_value inv)%Q.
Proof.
  unfold redemptions.
  induction fuel as [|fuel IH]; intros cur cnt evs; simpl note_payments.
  - destruct (cur <=d _); [discriminate|]. intros H. injection H as <-.
    simpl. rewrite sum_nil. ring.
  - destruct (cur <=d _);
      [|intros H; injection H as <-; simpl; rewrite sum_nil; ring].
    destruct (Date.add_months 6 cur) as [next| |]; simpl bind; try discriminate.
    destruct (note_payments g inv fuel coupon_amount next (S cnt)) as [rest| |] eqn:Hrest;
      simpl bind; try discriminate.
    intros H. injection H as <-. specialize (IH _ _ _ Hrest).
    destruct (cur =d _); cbn [map filter is_redemption List.length
                              PaymentSchedule.payment_type PaymentSchedule.payment_amount
                              final_payment coupon_payment];
      rewrite sum_cons, IH, !Nat2Z.inj_succ; unfold Z.succ;
      rewrite !inject_Z_plus; ring.
Qed.

(** The amounts of the schedule of a note add up to one coupon per
    payment, plus the face value when the schedule holds a final payment:
    without a final payment the face value is not part of the schedule. *)
Theorem note_schedule_total (uuid4 : nat -> string) (inv : Investment.t)
  (evs : list PaymentSchedule.t) :
  Investment.investment_type inv = TREASURY_NOTE ->
  new_payments uuid4 inv = Ok evs ->
  (Decimal.sum (map PaymentSchedule.payment_amount evs)
   == inject_Z (Z.of_nat (List.length evs)) * coupon_of inv
      + inject_Z (Z.of_nat (redemptions evs)) * Investment.face_value inv)%Q.
Proof.
  intros Htype. unfold new_payments. rewrite Htype, div_by_2. simpl bind.
  destruct (plus_relativedelta _ 6); simpl bind; try discriminate.
  apply note_payments_total.
Qed.

Lemma note_schedule_total_witness :
  exists evs,
    new_payments sample_ids note_odd_term = Ok evs
    /\ (Decimal.sum (map PaymentSchedule.payment_amount evs) == 20000)%Q.
Proof.
  destruct (new_payments sample_ids note_odd_term) as [evs| |] eqn:H;
    try (vm_compute in H; discriminate).
  exists evs. split; [reflexivity|].
  rewrite (note_schedule_total sample_ids note_odd_term evs eq_refl H).
  vm_compute in H. injection H as <-. reflexivity.
Defined.

(** ** Creation and expected returns *)







(** ** The listing and the summary *)

Lemma filter_filter_and {A : Type} (f g : A -> bool) (l : list A) :
  filter f (filter g l) = filter (fun x => g x && f x) l.
Proof.
  induction l as [|x l IH]; [reflexivity|]. simpl.
  destruct (g x); simpl; [destruct (f x)|]; rewrite IH; reflexivity.
Qed.

(** The summary counts the investments that the listing shows under the
    status filter [active], from the first row on and with a limit that
    the table does not exceed; its total face value is the sum over this
    listing. *)
Theorem summary_counts_active_listing (current_user : User.t) (db : Db.t) (limit : Z) :
  Z.of_nat (List.length (Db.investments db)) <= limit ->
  exists s,
    get_portfolio_summary current_user db = Ok s
    /\ PortfolioSummary.total_investments s
       = List.length (get_investments current_user db (Some ACTIVE) None 0 limit)
    /\ PortfolioSummary.total_face_value s
       = Decimal.sum (map Investment.face_value
                          (get_investments current_user db (Some ACTIVE) None 0 limit)).
Proof.
  intros Hlimit.
  assert (E : get_investments current_user db (Some ACTIVE) None 0 limit
              = active_investments_of current_user db).
  { unfold get_investments, active_investments_of. cbn [Z.to_nat skipn].
    rewrite filter_filter_and, firstn_all2; [reflexivity|].
    pose proof (filter_length_le
                  (fun x => String.eqb (Investment.user_id x) (User.id current_user)
                            && has_status ACTIVE x) (Db.investments db)).
    lia. }
  eexists. split; [apply summary_value|]. rewrite E. split; reflexivity.
Qed.

Lemma summary_counts_active_listing_witness :
  exists s,
    get_portfolio_summary user_1 db_note_bill = Ok s
    /\ PortfolioSummary.total_investments s
       = List.length (get_investments user_1 db_note_bill (Some ACTIVE) None 0 100).
Proof.
  destruct (summary_counts_active_listing user_1 db_note_bill 100) as (s & Hs & Hc & _).
  - simpl. lia.
  - exists s. split; assumption.
Defined.
